(** * react-smart-effect: dependency change detection and categorization

    A shallow embedding of the run-time logic of the library:
    - [deepCompareDeps] and [analyzeDeps]              (src/utils.ts),
    - the [shouldRun] decision of [useSmartEffect]      (src/useSmartEffect.ts),
    - [reportToDevTools] and its bounded report store   (src/devtools.ts),
    followed by the properties the specification states about them.

    JavaScript values are modelled as finite trees.  A structured value
    (array, plain object, function) carries the reference it lives at, so
    that identity ([Object.is], [===]) and structure ([lodash.isequal]) can
    both be observed on the same value.  Strings are ASCII, dependency
    arrays are dense (no holes), objects are plain objects with string keys. *)

From Stdlib Require Import List String Ascii ZArith Bool Lia PeanoNat Sorted.
From Stdlib Require Import DecimalString.
From Stdlib Require Import Floats.SpecFloat.
Import ListNotations.

Local Open Scope string_scope.
Local Open Scope list_scope.

(* ================================================================= *)
(** ** JavaScript values *)

Module JS.

(** A reference: the identity of a heap-allocated object or of a symbol. *)
Definition loc := positive.
Bind Scope positive_scope with loc.

(** Numbers are IEEE-754 doubles.  The comparisons below only observe
    which double a number is: NaN, a signed zero, a signed infinity or a
    finite non-zero double (sign, mantissa, exponent). *)
Definition number := spec_float.

Definition NaN : number := S754_nan.
Definition posZero : number := S754_zero false.
Definition negZero : number := S754_zero true.

(** The double nearest to an integer literal. *)
Definition ofZ (z : Z) : number := binary_normalize 53 1024 z 0 false.

(** Induction over values goes through the lists of elements and of
    properties. *)
Scheme All for list.
Scheme All for prod.

Inductive value : Type :=
| VUndefined
| VNull
| VBoolean (b : bool)
| VNumber (n : number)
| VString (s : string)
| VSymbol (id : loc)
| VBigInt (z : Z)
| VFunction (ref : loc) (name : string) (source : string)
| VArray (ref : loc) (elems : list value)
| VObject (ref : loc) (props : list (string * value)).

Arguments VSymbol id%_positive.
Arguments VBigInt z%_Z.
Arguments VFunction ref%_positive name%_string source%_string.
Arguments VArray ref%_positive elems%_list.
Arguments VObject ref%_positive props%_list.

(** The result of [typeof]. *)
Inductive jsType : Type :=
| TUndefined | TObject | TBoolean | TNumber | TString
| TSymbol | TBigInt | TFunction.

Definition typeOf (v : value) : jsType :=
  match v with
  | VUndefined => TUndefined
  | VNull => TObject
  | VBoolean _ => TBoolean
  | VNumber _ => TNumber
  | VString _ => TString
  | VSymbol _ => TSymbol
  | VBigInt _ => TBigInt
  | VFunction _ _ _ => TFunction
  | VArray _ _ => TObject
  | VObject _ _ => TObject
  end.

Definition isArray (v : value) : bool :=
  match v with VArray _ _ => true | _ => false end.

(** [typeof v === 'object' && v !== null] *)
Definition isObjectLike (v : value) : bool :=
  match v with VArray _ _ | VObject _ _ => true | _ => false end.

(** *** Number comparisons (ECMAScript Number::equal, ::sameValue,
    ::sameValueZero) *)

Definition isNaN (x : number) : bool :=
  match x with S754_nan => true | _ => false end.

(** [x === y] on numbers: IEEE equality, NaN differs from itself and the
    two zeros are equal. *)
Definition numberEqual (x y : number) : bool := SFeqb x y.

(** [Object.is(x, y)] on numbers: NaN is NaN, +0 is not -0. *)
Definition numberSameValue (x y : number) : bool :=
  match x, y with
  | S754_nan, S754_nan => true
  | S754_zero sx, S754_zero sy => Bool.eqb sx sy
  | _, _ => SFeqb x y
  end.

(** SameValueZero: NaN is NaN, +0 is -0. *)
Definition numberSameValueZero (x y : number) : bool :=
  (isNaN x && isNaN y) || SFeqb x y.

(** *** [Object.is] and [===] on values *)

(** Shared by [Object.is] and [===]: everything but numbers. *)
Definition sameNonNumber (v w : value) : bool :=
  match v, w with
  | VUndefined, VUndefined => true
  | VNull, VNull => true
  | VBoolean a, VBoolean b => Bool.eqb a b
  | VString a, VString b => String.eqb a b
  | VSymbol a, VSymbol b => Pos.eqb a b
  | VBigInt a, VBigInt b => Z.eqb a b
  | VFunction r _ _, VFunction r' _ _ => Pos.eqb r r'
  | VArray r _, VArray r' _ => Pos.eqb r r'
  | VObject r _, VObject r' _ => Pos.eqb r r'
  | _, _ => false
  end.

(** [Object.is(v, w)] *)
Definition objectIs (v w : value) : bool :=
  match v, w with
  | VNumber a, VNumber b => numberSameValue a b
  | _, _ => sameNonNumber v w
  end.

(** [v === w] *)
Definition strictEquals (v w : value) : bool :=
  match v, w with
  | VNumber a, VNumber b => numberEqual a b
  | _, _ => sameNonNumber v w
  end.

(** *** Run-time errors

    Reading a member ([.length], [.every], [.forEach], [[i]]) of
    [undefined] raises a TypeError; every other operation used by the
    library returns. *)
Inductive jsError : Type := TypeError.

Inductive result (A : Type) : Type :=
| Ok (a : A)
| Throw (e : jsError).
Arguments Ok {A} a.
Arguments Throw {A} e.

Definition bind {A B : Type} (m : result A) (k : A -> result B) : result B :=
  match m with
  | Ok a => k a
  | Throw e => Throw e
  end.

(** The receiver of a member access. *)
Definition member {A : Type} (x : option A) : result A :=
  match x with
  | Some a => Ok a
  | None => Throw TypeError
  end.

(** Truthiness of a possibly absent array: only [undefined] is falsy. *)
Definition truthy {A : Type} (x : option A) : bool :=
  match x with Some _ => true | None => false end.

(** Truthiness of a string: only the empty string is falsy. *)
Definition truthyString (s : string) : bool :=
  match s with EmptyString => false | String _ _ => true end.

(** [a[i]]: out of range reads [undefined]. *)
Definition index (a : list value) (i : nat) : value := nth i a VUndefined.

(** [a.every((x, i) => f(x, i))] *)
Fixpoint everyFrom {A : Type} (f : A -> nat -> bool) (i : nat) (a : list A) : bool :=
  match a with
  | [] => true
  | x :: rest => if f x i then everyFrom f (S i) rest else false
  end.

Definition every {A : Type} (f : A -> nat -> bool) (a : list A) : bool :=
  everyFrom f 0 a.

(** [a.forEach((x, i) => ...)] threading the object the callback mutates. *)
Fixpoint forEachFrom {A St : Type} (f : St -> A -> nat -> St) (i : nat) (a : list A) (s : St) : St :=
  match a with
  | [] => s
  | x :: rest => forEachFrom f (S i) rest (f s x i)
  end.

Definition forEach {A St : Type} (f : St -> A -> nat -> St) (a : list A) (s : St) : St :=
  forEachFrom f 0 a s.

(** *** Strings *)

(** The ASCII part of the white space class of [trim] and of [\s]. *)
Definition isWhiteSpace (c : ascii) : bool :=
  let n := nat_of_ascii c in
  ((n =? 32) || ((9 <=? n) && (n <=? 13)))%nat.

Fixpoint trimStart (s : string) : string :=
  match s with
  | EmptyString => EmptyString
  | String c rest => if isWhiteSpace c then trimStart rest else s
  end.

(** Drops trailing white space: a character is kept when something
    non-white follows or it is not white itself. *)
Fixpoint trimEnd (s : string) : string :=
  match s with
  | EmptyString => EmptyString
  | String c rest =>
      match trimEnd rest with
      | EmptyString => if isWhiteSpace c then EmptyString else String c EmptyString
      | rest' => String c rest'
      end
  end.

Definition trim (s : string) : string := trimEnd (trimStart s).

(** [s.startsWith(p)] and the remainder after the prefix. *)
Fixpoint stripPrefix (p s : string) : option string :=
  match p, s with
  | EmptyString, _ => Some s
  | String a p', String b s' => if Ascii.eqb a b then stripPrefix p' s' else None
  | String _ _, EmptyString => None
  end.

Definition startsWith (p s : string) : bool :=
  match stripPrefix p s with Some _ => true | None => false end.

(** [s.includes(p)] *)
Fixpoint includes (p s : string) : bool :=
  startsWith p s ||
  match s with
  | EmptyString => false
  | String _ s' => includes p s'
  end.

(** The template-literal rendering of an array index. *)
Definition indexToString (i : nat) : string :=
  NilEmpty.string_of_uint (Nat.to_uint i).

End JS.
Export JS.

Notation "x <- m ;; k" := (bind m (fun x => k))
  (at level 61, m at next level, right associativity).

(* ================================================================= *)
(** ** lodash.isequal *)

Module Lodash.

(** Own-property lookup in a plain object. *)
Fixpoint getProp (key : string) (props : list (string * value)) : option value :=
  match props with
  | [] => None
  | (k, v) :: rest => if String.eqb key k then Some v else getProp key rest
  end.

(** lodash's [equalArrays] and [equalObjects], over the comparison [f] of
    two members: arrays agree when they have the same length and [f]
    accepts the elements at every index; [other] agrees with an object of
    properties [props] when it has each of their keys and [f] accepts the
    two values under it (the number of keys is compared by the caller). *)
Section Members.

Variable f : value -> value -> bool.

Fixpoint equalArrays (array other : list value) {struct array} : bool :=
  match array, other with
  | [], [] => true
  | x :: array', y :: other' => f x y && equalArrays array' other'
  | _, _ => false
  end.

Fixpoint equalProps (other props : list (string * value)) {struct props} : bool :=
  match props with
  | [] => true
  | (key, x) :: props' =>
      match getProp key other with
      | Some y => f x y && equalProps other props'
      | None => false
      end
  end.

End Members.

(** [isEqual(value, other)].  lodash is an external dependency; this is
    its [baseIsEqual] on the values of the model: strictly equal values
    are equal, two NaN are equal, arrays are compared by length and
    element-wise, plain objects by number of keys and key-wise, and
    values of different kinds differ.  Functions and symbols are only
    ever compared by [===]. *)
Fixpoint isEqual (value other : value) {struct value} : bool :=
  strictEquals value other ||
  match value, other with
  | VNumber a, VNumber b => isNaN a && isNaN b
  | VArray _ xs, VArray _ ys => equalArrays isEqual xs ys
  | VObject _ ps, VObject _ qs =>
      (List.length ps =? List.length qs)%nat && equalProps isEqual qs ps
  | _, _ => false
  end.

End Lodash.
Export Lodash.

(* ================================================================= *)
(** ** src/utils.ts *)

Module Utils.

Definition DependencyList := list value.

(** [prevDeps === nextDeps] where at least one side is [undefined]: the
    only way both sides agree is that both are absent.  (Two arrays are
    never compared by this expression: the guard in front of it lets it
    run only when one side is falsy.) *)
Definition sameDeps (prevDeps nextDeps : option DependencyList) : bool :=
  match prevDeps, nextDeps with
  | None, None => true
  | _, _ => false
  end.

(** [deepCompareDeps(prevDeps, nextDeps)]: [true] means unchanged. *)
Definition deepCompareDeps (prevDeps nextDeps : option DependencyList) : result bool :=
  if negb (truthy prevDeps) || negb (truthy nextDeps)
  then Ok (sameDeps prevDeps nextDeps)
  else
    prev <- member prevDeps ;;
    next <- member nextDeps ;;
    if negb (List.length prev =? List.length next)%nat then Ok false
    else
      Ok (every
            (fun prev index =>
               let next := JS.index next index in
               if isObjectLike prev then isEqual prev next
               else objectIs prev next)
            prev).

Record DependencyAnalysis : Type := mkAnalysis {
  primitives : list value;
  objects : list value;
  functions : list value;
  potentiallyMissing : list string;
  redundant : list value
}.

Definition emptyAnalysis : DependencyAnalysis :=
  mkAnalysis [] [] [] [] [].

(** [a.push(x)] *)
Definition push {A : Type} (a : list A) (x : A) : list A := a ++ [x].

Definition pushPrimitive (a : DependencyAnalysis) (v : value) : DependencyAnalysis :=
  mkAnalysis (push (primitives a) v) (objects a) (functions a)
             (potentiallyMissing a) (redundant a).

Definition pushObject (a : DependencyAnalysis) (v : value) : DependencyAnalysis :=
  mkAnalysis (primitives a) (push (objects a) v) (functions a)
             (potentiallyMissing a) (redundant a).

Definition pushFunction (a : DependencyAnalysis) (v : value) : DependencyAnalysis :=
  mkAnalysis (primitives a) (objects a) (push (functions a) v)
             (potentiallyMissing a) (redundant a).

Definition pushMissing (a : DependencyAnalysis) (msg : string) : DependencyAnalysis :=
  mkAnalysis (primitives a) (objects a) (functions a)
             (push (potentiallyMissing a) msg) (redundant a).

(** [/^function\s*\(/.test(s)] *)
Definition matchesNamelessFunction (s : string) : bool :=
  match stripPrefix "function" s with
  | Some rest => startsWith "(" (trimStart rest)
  | None => false
  end.

(** [dep.name] and [dep.toString()] of a function value (the categorizer
    reads them only under [case 'function']). *)
Definition functionName (dep : value) : string :=
  match dep with VFunction _ name _ => name | _ => "" end.

Definition functionToString (dep : value) : string :=
  match dep with VFunction _ _ source => source | _ => "" end.

(** The [isAnonymous] test of the ['function'] case. *)
Definition isAnonymous (dep : value) : bool :=
  let fnString := trim (functionToString dep) in
  includes "=>" fnString
  || matchesNamelessFunction fnString
  || negb (truthyString (functionName dep))
  || String.eqb (functionName dep) "anonymous".

(** The body of the [forEach] callback: the [switch] on [typeof dep]. *)
Definition analyzeDep (analysis : DependencyAnalysis) (dep : value) (index : nat)
  : DependencyAnalysis :=
  match typeOf dep with
  | TString | TNumber | TBoolean | TUndefined =>
      pushPrimitive analysis dep
  | TFunction =>
      pushMissing (pushFunction analysis dep)
                  (if isAnonymous dep
                   then "Anonymous function at index " ++ indexToString index
                   else "Named function at index " ++ indexToString index)%string
  | TObject =>
      match dep with
      | VNull => pushPrimitive analysis dep
      | _ =>
          if isArray dep then
            pushMissing (pushObject analysis dep)
                        ("Array at index " ++ indexToString index)%string
          else
            pushMissing (pushObject analysis dep)
                        ("Object at index " ++ indexToString index)%string
      end
  | TSymbol | TBigInt =>
      analysis
  end.

(** [analyzeDeps(deps)] for a dependency list, as its signature has it. *)
Definition analyzeDeps (deps : DependencyList) : DependencyAnalysis :=
  forEach analyzeDep deps emptyAnalysis.

(** [analyzeDeps] as the compiled JavaScript receives its argument: the
    parameter type is erased, and [deps.forEach] is a member access. *)
Definition analyzeDepsJS (deps : option DependencyList) : result DependencyAnalysis :=
  deps' <- member deps ;;
  Ok (analyzeDeps deps').

End Utils.
Export Utils.

(* ================================================================= *)
(** ** src/devtools.ts *)

Module DevTools.

Record ReportDependencies : Type := mkReportDependencies {
  previous : DependencyList;
  current : DependencyList;
  changed : list bool
}.

Record EffectReport : Type := mkReport {
  id : string;
  triggered : bool;
  dependencies : ReportDependencies;
  timestamp : Z;
  renderCount : nat
}.

(** A JavaScript [Map<string, EffectReport>]: its entries in insertion
    order, at most one per key. *)
Definition ReportMap := list (string * EffectReport).

Definition size (m : ReportMap) : nat := List.length m.

(** [m.set(key, report)]: an existing key keeps its place and takes the
    new report, a new key goes last. *)
Fixpoint set (key : string) (report : EffectReport) (m : ReportMap) : ReportMap :=
  match m with
  | [] => [(key, report)]
  | (k, r) :: rest =>
      if String.eqb k key then (k, report) :: rest
      else (k, r) :: set key report rest
  end.

(** [m.delete(key)] *)
Fixpoint delete (key : string) (m : ReportMap) : ReportMap :=
  match m with
  | [] => []
  | (k, r) :: rest =>
      if String.eqb k key then rest else (k, r) :: delete key rest
  end.

(** [m.get(key)] *)
Fixpoint get (key : string) (m : ReportMap) : option EffectReport :=
  match m with
  | [] => None
  | (k, r) :: rest => if String.eqb k key then Some r else get key rest
  end.

(** [m.keys().next().value]: the first key in insertion order, or
    [undefined] for an empty map. *)
Definition firstKey (m : ReportMap) : option string :=
  match m with
  | [] => None
  | (k, _) :: _ => Some k
  end.

Record DevToolsState : Type := mkState {
  effects : ReportMap;
  isEnabled : bool
}.

(** What [window.__REACT_SMART_EFFECT_DEVTOOLS__] holds when the function
    looks at it: nothing (no window, or no such global), or an object
    with or without a callable [postMessage]. *)
Inductive DevToolsGlobal : Type :=
| NoGlobal
| GlobalObject (hasPostMessage : bool).

(** The object [initializeDevToolsPanel] installs: [getReports],
    [getReport], [clearReports], [generateGraph], [enable], [version]. *)
Definition panelGlobal : DevToolsGlobal := GlobalObject false.

(** The store when the module is loaded: empty, and reporting is on only
    in a browser under [NODE_ENV === 'development']. *)
Definition initialState (browserDevelopment : bool) : DevToolsState :=
  mkState [] browserDevelopment.

(** [enableDevTools(enabled)] *)
Definition enableDevTools (enabled : bool) (st : DevToolsState) : DevToolsState :=
  mkState (effects st) enabled.

(** [clearEffectReports()] *)
Definition clearEffectReports (st : DevToolsState) : DevToolsState :=
  mkState [] (isEnabled st).

(** [getEffectReports()] *)
Definition getEffectReports (st : DevToolsState) : list EffectReport :=
  map snd (effects st).

(** The cap of the store. *)
Definition maxReports : nat := 1000.

(** The last statement of [reportToDevTools]: drop the first key when the
    map has grown past the cap; [if (oldestKey)] tests truthiness. *)
Definition limitReports (m : ReportMap) : ReportMap :=
  if (maxReports <? size m)%nat then
    match firstKey m with
    | Some oldestKey =>
        if truthyString oldestKey then delete oldestKey m else m
    | None => m
    end
  else m.

(** [reportToDevTools(report)]: the state it leaves and how it ends.
    The message handed to [postMessage] is not part of the state. *)
Definition reportToDevTools (global : DevToolsGlobal) (report : EffectReport)
           (st : DevToolsState) : DevToolsState * result unit :=
  if negb (isEnabled st) then (st, Ok tt)
  else
    let stored := set (id report) report (effects st) in
    match global with
    | GlobalObject false =>
        (* calling a missing method: the report stays stored *)
        (mkState stored (isEnabled st), Throw TypeError)
    | GlobalObject true | NoGlobal =>
        (mkState (limitReports stored) (isEnabled st), Ok tt)
    end.

(** A sequence of calls, one after the other; a call that raises leaves
    the state it had reached. *)
Definition reportAll (global : DevToolsGlobal) (reports : list EffectReport)
           (st : DevToolsState) : DevToolsState :=
  fold_left (fun s r => fst (reportToDevTools global r s)) reports st.

End DevTools.
Export DevTools.

(* ================================================================= *)
(** ** src/useSmartEffect.ts *)

Module Hook.

Inductive EffectMode : Type := effect | layoutEffect.

(** [UseSmartEffectOptions] after the defaults of the destructuring are
    applied: absent flags are [false], an absent [mode] is [effect]. *)
Record UseSmartEffectOptions : Type := mkOptions {
  skipFirstRender : bool;
  debug : bool;
  mode : EffectMode;
  deepCompare : bool;
  compareFunction : option (DependencyList -> DependencyList -> bool);
  effectId : option string
}.

Definition defaultOptions : UseSmartEffectOptions :=
  mkOptions false false effect false None None.

(** The refs the hook keeps between renders. *)
Record HookRefs : Type := mkRefs {
  isFirstRender : bool;
  prevDepsRef : option DependencyList
}.

(** The refs of a component that has not rendered yet. *)
Definition initialRefs : HookRefs := mkRefs true None.

(** [prevDeps || []] *)
Definition orEmpty (prevDeps : option DependencyList) : DependencyList :=
  match prevDeps with
  | Some prev => prev
  | None => []
  end.

(** The [shouldRun] expression of [useSmartEffect]: [true] means the
    effect is to run ("changed"). *)
Definition shouldRun (options : UseSmartEffectOptions) (refs : HookRefs)
           (deps : option DependencyList) : result bool :=
  if isFirstRender refs then Ok (negb (skipFirstRender options))
  else if negb (truthy deps) then Ok true
  else
    let prevDeps := prevDepsRef refs in
    match compareFunction options with
    | Some compare =>
        next <- member deps ;;
        Ok (negb (compare (orEmpty prevDeps) next))
    | None =>
        if deepCompare options then
          unchanged <- deepCompareDeps prevDeps deps ;;
          Ok (negb unchanged)
        else if negb (truthy prevDeps) then Ok true
        else
          prev <- member prevDeps ;;
          next <- member deps ;;
          if negb (List.length prev =? List.length next)%nat then Ok true
          else
            Ok (negb (every (fun dep index => objectIs dep (JS.index prev index)) next))
    end.

(** One render of the hook followed by React committing it: the decision,
    and the refs left for the next render.  [prevDepsRef] takes a copy of
    [deps]; the effect callback registered by the first render runs when
    the component mounts and clears the first-render flag.  Logging and
    the DevTools report do not touch the refs. *)
Definition render (options : UseSmartEffectOptions) (deps : option DependencyList)
           (refs : HookRefs) : result (bool * HookRefs) :=
  run <- shouldRun options refs deps ;;
  Ok (run, mkRefs false deps).

(** The refs after a sequence of renders, each with its own options and
    dependencies. *)
Fixpoint renders (history : list (UseSmartEffectOptions * option DependencyList))
         (refs : HookRefs) : result HookRefs :=
  match history with
  | [] => Ok refs
  | (options, deps) :: rest =>
      r <- render options deps refs ;;
      renders rest (snd r)
  end.

(** The analysis of the debug block: [analyzeDeps] is called only under
    [if (debug && deps)]. *)
Definition debugAnalysis (options : UseSmartEffectOptions)
           (deps : option DependencyList) : result (option DependencyAnalysis) :=
  if debug options && truthy deps then
    analysis <- analyzeDepsJS deps ;;
    Ok (Some analysis)
  else Ok None.

(** The three comparison strategies of the options. *)
Inductive Strategy : Type :=
| Identity
| Deep
| Custom (compare : DependencyList -> DependencyList -> bool).

Definition strategyOf (options : UseSmartEffectOptions) : Strategy :=
  match compareFunction options with
  | Some compare => Custom compare
  | None => if deepCompare options then Deep else Identity
  end.

End Hook.
Export Hook.

(* ================================================================= *)
(** ** The notions the specification speaks in *)

Module Spec.

(** "Pairwise identical": the same reference for structured values,
    functions and symbols, the same primitive value for primitives. *)
Definition identical (v w : value) : Prop :=
  match v, w with
  | VFunction r _ _, VFunction r' _ _ => r = r'
  | VArray r _, VArray r' _ => r = r'
  | VObject r _, VObject r' _ => r = r'
  | VFunction _ _ _, _ | VArray _ _, _ | VObject _ _, _ => False
  | _, VFunction _ _ _ | _, VArray _ _ | _, VObject _ _ => False
  | _, _ => v = w
  end.

(** "Recursive structural equality ignoring reference identity", for a
    given way [numEq] of comparing numbers at every depth: arrays are
    equal when they have the same length and equal elements, objects
    when they have the same number of keys and equal values under each
    key; function references and symbols have no structure and are equal
    when they are the same. *)
Section StructuralEquality.

Variable numEq : number -> number -> bool.

Fixpoint structurallyEqual (v w : value) {struct v} : bool :=
  match v, w with
  | VNumber a, VNumber b => numEq a b
  | VArray _ xs, VArray _ ys => equalArrays structurallyEqual xs ys
  | VObject _ ps, VObject _ qs =>
      (List.length ps =? List.length qs)%nat && equalProps structurallyEqual qs ps
  | VArray _ _, _ | VObject _ _, _ | _, VArray _ _ | _, VObject _ _ => false
  | _, _ => sameNonNumber v w
  end.

(** Element-wise structural equality of two sequences. *)
Definition allStructurallyEqual (prev next : list value) : bool :=
  equalArrays structurallyEqual prev next.

End StructuralEquality.

(** Every value inside a value, itself included. *)
Fixpoint nodes (v : value) : list value :=
  v :: match v with
       | VArray _ xs => flat_map nodes xs
       | VObject _ ps => flat_map (fun p => nodes (snd p)) ps
       | _ => []
       end.

Definition refOf (v : value) : option loc :=
  match v with
  | VFunction r _ _ | VArray r _ | VObject r _ => Some r
  | _ => None
  end.

(** Two collections of values agree when a reference that occurs in both
    stands for the same object in both. *)
Definition agreeOn (left right : list value) : Prop :=
  forall a b r,
    In a left -> In b right ->
    refOf a = Some r -> refOf b = Some r -> a = b.

(** The keys of every object of a collection are distinct. *)
Definition keysOn (among : list value) : Prop :=
  forall r ps, In (VObject r ps) among -> NoDup (map fst ps).

(** The values were read from one heap: a reference stands for one
    object, so two occurrences of it show the same contents. *)
Definition coherent (vs : list value) : Prop :=
  agreeOn (flat_map nodes vs) (flat_map nodes vs).

(** The keys of a JavaScript object are distinct. *)
Definition distinctKeys (vs : list value) : Prop :=
  keysOn (flat_map nodes vs).

(** Values as one state of the heap shows them. *)
Definition snapshot (vs : list value) : Prop :=
  coherent vs /\ distinctKeys vs.

(** The dependencies the categorizer is specified to bucket. *)
Definition isPrimitiveDep (v : value) : bool :=
  match v with
  | VNull | VString _ | VNumber _ | VBoolean _ | VUndefined => true
  | _ => false
  end.

Definition isFunctionDep (v : value) : bool :=
  match v with VFunction _ _ _ => true | _ => false end.

Definition isSymbolOrBigInt (v : value) : bool :=
  match typeOf v with TSymbol | TBigInt => true | _ => false end.

(** The advisories of a sequence whose first element has index [i], in
    input order. *)
Fixpoint advisoriesFrom (i : nat) (deps : list value) : list string :=
  match deps with
  | [] => []
  | v :: rest =>
      (match v with
       | VArray _ _ => [("Array at index " ++ indexToString i)%string]
       | VObject _ _ => [("Object at index " ++ indexToString i)%string]
       | VFunction _ _ _ =>
           [if isAnonymous v
            then ("Anonymous function at index " ++ indexToString i)%string
            else ("Named function at index " ++ indexToString i)%string]
       | _ => []
       end ++ advisoriesFrom (S i) rest)%list
  end.

(** The number of elements held by the three value buckets. *)
Definition bucketed (a : DependencyAnalysis) : nat :=
  List.length (primitives a) + List.length (objects a) + List.length (functions a).

(** The same values in another run of the program: the allocator placed
    every structured value, function and symbol somewhere else. *)
Section Renaming.

Variable rho : loc -> loc.

Fixpoint rename (v : value) : value :=
  match v with
  | VSymbol id => VSymbol (rho id)
  | VFunction r name source => VFunction (rho r) name source
  | VArray r xs => VArray (rho r) (map rename xs)
  | VObject r ps => VObject (rho r) (map (fun p => (fst p, rename (snd p))) ps)
  | _ => v
  end.

Definition renameAnalysis (a : DependencyAnalysis) : DependencyAnalysis :=
  mkAnalysis (map rename (primitives a)) (map rename (objects a))
             (map rename (functions a)) (potentiallyMissing a)
             (map rename (redundant a)).

End Renaming.

End Spec.
Export Spec.

(* ================================================================= *)
(** ** Sample values *)

Module Samples.

Definition num (z : Z) : value := VNumber (ofZ z).

(** [{a: 1, b: 2}] and [{a: 1, b: 3}], allocated at [r]. *)
Definition objAB (r : loc) (b : Z) : value :=
  VObject r [("a", num 1); ("b", num b)].

(** [{a: z}] allocated at [r]. *)
Definition objA (r : loc) (z : number) : value :=
  VObject r [("a", VNumber z)].

(** [const namedFn = function namedFunction() {}] *)
Definition namedFn : value :=
  VFunction 10 "namedFunction" "function namedFunction() {}".

(** [const anonymousFn = () => {}] *)
Definition anonymousFn : value :=
  VFunction 11 "anonymousFn" "() => {}".

(** [function double() { return [1, 2].map(x => x * 2); }] *)
Definition doubleFn : value :=
  VFunction 12 "double" "function double() { return [1, 2].map(x => x * 2); }".

(** The predicate of the test suite: [(prev, next) => prev[0] === next[0]]. *)
Definition customCompare (prev next : DependencyList) : bool :=
  strictEquals (JS.index prev 0) (JS.index next 0).

Definition customOptions : UseSmartEffectOptions :=
  mkOptions false false effect false (Some customCompare) None.

Definition deepOptions : UseSmartEffectOptions :=
  mkOptions false false effect true None None.

Definition skipOptions : UseSmartEffectOptions :=
  mkOptions true false effect false None None.

(** The refs after a render with dependencies [prev]. *)
Definition after (prev : option DependencyList) : HookRefs := mkRefs false prev.

(** A report under the identifier [key]. *)
Definition sampleReport (key : string) : EffectReport :=
  mkReport key true (mkReportDependencies [] [] []) 0 0.

Definition generatedId (k : nat) : string := "effect_" ++ indexToString k.

(** A report under [first], then reports under [effect_1] ... [effect_n]. *)
Definition reportsFrom (first : string) (n : nat) : list EffectReport :=
  sampleReport first :: map (fun k => sampleReport (generatedId k)) (seq 1 n).

(** The store after [enableDevTools(true)], nothing stored yet. *)
Definition enabledEmpty : DevToolsState := enableDevTools true (initialState false).

(** No report is stored under the empty identifier. *)
Definition keysNonEmpty (m : ReportMap) : Prop :=
  Forall (fun entry => fst entry <> "") m.

End Samples.
Export Samples.

(* ================================================================= *)
(** ** src/utils.ts: warnings, change log, effect identifiers *)

Module Reporting.

Local Open Scope string_scope.

(** What the library writes to the console, in order. *)
Inductive ConsoleCall : Type :=
| ConsoleGroup (label : string)
| ConsoleLog (message : string) (arguments : list value)
| ConsoleWarn (message : string)
| ConsoleGroupEnd.

(** The line feed of the template literals. *)
Definition newline : string := String (ascii_of_nat 10) EmptyString.

(** [parts.join(sep)] *)
Fixpoint join (sep : string) (parts : list string) : string :=
  match parts with
  | [] => ""
  | [part] => part
  | part :: rest => part ++ sep ++ join sep rest
  end.

(** [a.map((x, i) => f(x, i))] *)
Fixpoint mapFrom {A B : Type} (f : A -> nat -> B) (i : nat) (a : list A) : list B :=
  match a with
  | [] => []
  | x :: rest => f x i :: mapFrom f (S i) rest
  end.

Definition mapIndexed {A B : Type} (f : A -> nat -> B) (a : list A) : list B :=
  mapFrom f 0 a.

(** [effectId ? `[useSmartEffect:${effectId}]` : '[useSmartEffect]'] *)
Definition effectPrefix (effectId : option string) : string :=
  match effectId with
  | Some name =>
      if truthyString name then "[useSmartEffect:" ++ name ++ "]"
      else "[useSmartEffect]"
  | None => "[useSmartEffect]"
  end.


(** An entry of [changes] in [logDependencyChanges]. *)
Record DependencyChange : Type := mkChange {
  index : nat;
  prev : value;
  next : value;
  changed : bool
}.

(** The [changes] of [logDependencyChanges]: one entry per element of
    [nextDeps], kept when it is neither the same value nor deeply equal. *)
Definition dependencyChanges (prevDeps nextDeps : DependencyList) : list DependencyChange :=
  filter (fun c => changed c)
         (mapIndexed
            (fun next index =>
               let prev := JS.index prevDeps index in
               mkChange index prev next
                        (negb (objectIs prev next) && negb (isEqual prev next)))
            nextDeps).

(** [logDependencyChanges(prevDeps, nextDeps, effectId)]: what it prints. *)
Definition logDependencyChanges (prevDeps nextDeps : option DependencyList)
           (effectId : option string) : list ConsoleCall :=
  match prevDeps, nextDeps with
  | Some prevDeps, Some nextDeps =>
      let changes := dependencyChanges prevDeps nextDeps in
      if (0 <? List.length changes)%nat then
        ([ConsoleGroup (effectPrefix effectId ++ " Dependencies Changed")]
         ++ map (fun c => ConsoleLog ("Index " ++ indexToString (index c) ++ ":")
                                     [prev c; next c])
                changes
         ++ [ConsoleGroupEnd])%list
      else []
  | _, _ => []
  end.

(** [createEffectId()], given what [Date.now()] returns and the digits
    [Math.random().toString(36).substr(2, 9)] yields. *)
Definition createEffectId (now : N) (randomDigits : string) : string :=
  "effect_" ++ NilEmpty.string_of_uint (N.to_uint now) ++ "_" ++ randomDigits.

End Reporting.

(* ================================================================= *)
(** ** src/useSmartEffect.ts: the report of a render and the wrappers *)

Module SmartEffect.

(** What the clock and the random generator give during one render. *)
Record RenderInputs : Type := mkInputs {
  idTime : N;
  idRandom : string;
  reportTime : N;
  devToolsGlobal : DevToolsGlobal
}.

(** A mounted hook: its refs, and the identifier [useRef] fixed on the
    first render ([None] before it). *)
Record HookInstance : Type := mkInstance {
  hookRefs : HookRefs;
  effectIdRef : option string
}.

Definition unmounted : HookInstance := mkInstance initialRefs None.

(** [useRef(id || createEffectId()).current] *)
Definition resolveEffectId (options : UseSmartEffectOptions) (inputs : RenderInputs)
           (kept : option string) : string :=
  match kept with
  | Some effectId => effectId
  | None =>
      match effectId options with
      | Some given =>
          if truthyString given then given
          else Reporting.createEffectId (idTime inputs) (idRandom inputs)
      | None => Reporting.createEffectId (idTime inputs) (idRandom inputs)
      end
  end.

(** [prevDepsRef.current?.[index]] *)
Definition optionalIndex (prevDeps : option DependencyList) (index : nat) : value :=
  match prevDeps with
  | Some prev => JS.index prev index
  | None => VUndefined
  end.

(** The [changed] field of the report:
    [deps ? deps.map((dep, index) => !Object.is(dep, prevDepsRef.current?.[index])) : []] *)
Definition changedFlags (prevDeps deps : option DependencyList) : list bool :=
  match deps with
  | Some deps =>
      Reporting.mapIndexed
        (fun dep index => negb (objectIs dep (optionalIndex prevDeps index))) deps
  | None => []
  end.

(** The report a render builds. *)
Definition makeReport (effectId : string) (run : bool) (refs : HookRefs)
           (deps : option DependencyList) (inputs : RenderInputs) : EffectReport :=
  mkReport effectId run
           (mkReportDependencies (orEmpty (prevDepsRef refs)) (orEmpty deps)
                                 (changedFlags (prevDepsRef refs) deps))
           (Z.of_N (reportTime inputs)) 0.

(** One render of [useSmartEffect] and its commit, over the hook and the
    report store: the decision, the report handed to [reportToDevTools],
    the new refs.  When [reportToDevTools] raises, the render is abandoned
    before the refs are written (the report it stored stays). *)
Definition useSmartEffect (options : UseSmartEffectOptions) (deps : option DependencyList)
           (inputs : RenderInputs) (hook : HookInstance) (store : DevToolsState)
  : result (bool * HookInstance) * DevToolsState :=
  let effectId := resolveEffectId options inputs (effectIdRef hook) in
  match shouldRun options (hookRefs hook) deps with
  | Throw e => (Throw e, store)
  | Ok run =>
      let report := makeReport effectId run (hookRefs hook) deps inputs in
      match reportToDevTools (devToolsGlobal inputs) report store with
      | (store', Ok _) =>
          (Ok (run, mkInstance (mkRefs false deps) (Some effectId)), store')
      | (store', Throw e) => (Throw e, store')
      end
  end.

(** [{ ...options, mode: 'layoutEffect' }], [{ ...options, deepCompare: true }]
    and [{ ...options, debug: true }]: the options [useSmartLayoutEffect],
    [useDeepEffect] and [useDebugEffect] pass on. *)
Definition useSmartLayoutEffect (options : UseSmartEffectOptions) : UseSmartEffectOptions :=
  mkOptions (skipFirstRender options) (debug options) layoutEffect
            (deepCompare options) (compareFunction options) (effectId options).

Definition useDeepEffect (options : UseSmartEffectOptions) : UseSmartEffectOptions :=
  mkOptions (skipFirstRender options) (debug options) (mode options)
            true (compareFunction options) (effectId options).

Definition useDebugEffect (options : UseSmartEffectOptions) : UseSmartEffectOptions :=
  mkOptions (skipFirstRender options) true (mode options)
            (deepCompare options) (compareFunction options) (effectId options).

End SmartEffect.

(* ================================================================= *)
(** ** src/plugins/vite.ts: which files are transformed *)

Module Vite.

(** A [RegExp] object: the object itself, its [g] and [y] flags, and the
    matcher of its pattern, which tried at an index of the input fails or
    gives the index where the match ends. *)
Record RegExp : Type := mkRegExp {
  object : loc;
  global : bool;
  sticky : bool;
  matcher : string -> nat -> option nat
}.

(** The [lastIndex] each [RegExp] object carries from call to call. *)
Definition LastIndexes := loc -> nat.

Definition fresh : LastIndexes := fun _ => 0.

Definition setLastIndex (indexes : LastIndexes) (regexp : loc) (lastIndex : nat)
  : LastIndexes :=
  fun other => if Pos.eqb other regexp then lastIndex else indexes other.

(** The first index from [start] on, among [fuel] of them, at which the
    matcher succeeds. *)
Fixpoint searchFrom (tryAt : nat -> option nat) (start fuel : nat) : option nat :=
  match fuel with
  | 0 => None
  | S fuel' =>
      match tryAt start with
      | Some matchEnd => Some matchEnd
      | None => searchFrom tryAt (S start) fuel'
      end
  end.

(** [re.test(input)] with the [lastIndex] it finds: the answer and the
    [lastIndex] it leaves.  Without [g] and [y] the search starts at 0 and
    [lastIndex] is not written; with one of them it starts at [lastIndex]
    ([y]: only there), a match leaves its end and a failure leaves 0. *)
Definition regExpTest (re : RegExp) (input : string) (lastIndex : nat) : bool * nat :=
  let stateful := global re || sticky re in
  let start := if stateful then lastIndex else 0 in
  if (String.length input <? start)%nat then (false, if stateful then 0 else lastIndex)
  else
    match (if sticky re then matcher re input start
           else searchFrom (matcher re input) start (S (String.length input - start)))
    with
    | Some matchEnd => (true, if stateful then matchEnd else lastIndex)
    | None => (false, if stateful then 0 else lastIndex)
    end.

(** An entry of [include] or [exclude]. *)
Inductive Pattern : Type :=
| PatternString (text : string)
| PatternRegExp (re : RegExp).

(** [string | RegExp | Array<string | RegExp>] *)
Inductive Patterns : Type :=
| One (pattern : Pattern)
| Many (patterns : list Pattern).

(** Truthiness of an option value: absent and the empty string are falsy,
    regular expressions and arrays (the empty one too) are truthy. *)
Definition truthyPatterns (given : option Patterns) : bool :=
  match given with
  | None => false
  | Some (One (PatternString text)) => truthyString text
  | Some _ => true
  end.

(** [Array.isArray(x) ? x : [x]] *)
Definition patternList (given : option Patterns) : list Pattern :=
  match given with
  | Some (One pattern) => [pattern]
  | Some (Many patterns) => patterns
  | None => []
  end.

(** [pattern instanceof RegExp ? pattern.test(id) : id.includes(pattern)] *)
Definition matchesPattern (normalizedId : string) (pattern : Pattern)
           (indexes : LastIndexes) : bool * LastIndexes :=
  match pattern with
  | PatternRegExp re =>
      let (found, lastIndex) := regExpTest re normalizedId (indexes (object re)) in
      (found,
       if global re || sticky re then setLastIndex indexes (object re) lastIndex
       else indexes)
  | PatternString text => (includes text normalizedId, indexes)
  end.

(** [for (const pattern of patterns) if (<pattern matches>) return ...]:
    whether the loop returned, and the [lastIndex] values it leaves. *)
Fixpoint anyMatches (normalizedId : string) (patterns : list Pattern)
         (indexes : LastIndexes) : bool * LastIndexes :=
  match patterns with
  | [] => (false, indexes)
  | pattern :: rest =>
      let (found, indexes') := matchesPattern normalizedId pattern indexes in
      if found then (true, indexes') else anyMatches normalizedId rest indexes'
  end.

(** [id.replace(/\\/g, '/')] *)
Fixpoint normalize (id : string) : string :=
  match id with
  | EmptyString => EmptyString
  | String c rest =>
      String (if Ascii.eqb c (ascii_of_nat 92) then ascii_of_nat 47 else c)
             (normalize rest)
  end.

(** [shouldTransform(id, include, exclude)]: the answer, and the
    [lastIndex] values the patterns are left with. *)
Definition shouldTransform (id : string) (include exclude : option Patterns)
           (indexes : LastIndexes) : bool * LastIndexes :=
  let normalizedId := normalize id in
  let (excluded, indexes) :=
    if truthyPatterns exclude
    then anyMatches normalizedId (patternList exclude) indexes
    else (false, indexes) in
  if excluded then (false, indexes)
  else if truthyPatterns include then
    anyMatches normalizedId (patternList include) indexes
  else (true, indexes).

(** A string, or a regular expression with neither [g] nor [y]. *)
Definition stateless (pattern : Pattern) : bool :=
  match pattern with
  | PatternString _ => true
  | PatternRegExp re => negb (global re || sticky re)
  end.

(** What a pattern answers when its [lastIndex] is 0. *)
Definition accepts (normalizedId : string) (pattern : Pattern) : bool :=
  fst (matchesPattern normalizedId pattern fresh).

(** The input from an index on. *)
Fixpoint from (index : nat) (input : string) : string :=
  match index, input with
  | S index', String _ rest => from index' rest
  | _, _ => input
  end.

(** The defaults of the plugin: [/\.(tsx?|jsx?)$/] and [/node_modules/]. *)
Definition sourceFileRegExp : RegExp :=
  mkRegExp 1 false false
           (fun input index =>
              let rest := from index input in
              if String.eqb rest ".ts" || String.eqb rest ".tsx"
                 || String.eqb rest ".js" || String.eqb rest ".jsx"
              then Some (String.length input) else None).

Definition nodeModulesRegExp : RegExp :=
  mkRegExp 2 false false
           (fun input index =>
              if startsWith "node_modules" (from index input)
              then Some (index + 12) else None).

Definition defaultInclude : option Patterns := Some (One (PatternRegExp sourceFileRegExp)).

Definition defaultExclude : option Patterns := Some (One (PatternRegExp nodeModulesRegExp)).

(** [/node_modules/g]: the same pattern with the [g] flag. *)
Definition nodeModulesGlobal : RegExp :=
  mkRegExp 3 true false (matcher nodeModulesRegExp).

End Vite.

(* ================================================================= *)
(** ** src/plugins/babel.ts: the analysis of a hook call *)

Module Babel.

Local Open Scope string_scope.

(** An element of the dependency array literal, as far as the plugin
    tells elements apart. *)
Inductive Element : Type :=
| ObjectExpression
| ArrayExpression
| FunctionExpression
| ArrowFunctionExpression
| Identifier (name : string)
| OtherExpression.

(** An argument of the call: an array literal with its elements (a hole
    is [None]) or something else. *)
Inductive Argument : Type :=
| ArrayArgument (elements : list (option Element))
| OtherArgument.

Inductive Callee : Type :=
| IdentifierCallee (name : string)
| OtherCallee.

(** The call expression: [line] is [node.loc?.start.line]. *)
Record CallExpression : Type := mkCall {
  callee : Callee;
  arguments : list Argument;
  line : option nat
}.

(** [state]: the file name and the options, absent flags being falsy. *)
Record PluginState : Type := mkPluginState {
  filename : option string;
  autoFix : bool;
  warnOnly : bool
}.

(** How the visitor ends: normally, having printed [console], or by
    throwing the code frame error built from [message]. *)
Inductive Outcome : Type :=
| Completed (console : list Reporting.ConsoleCall)
| CodeFrameError (message : string).

(** What the [forEach] callback has collected: the issues, and the
    messages the fixes will log. *)
Record Findings : Type := mkFindings {
  issues : list string;
  fixes : list string
}.

Definition isLiteral (dep : Element) : bool :=
  match dep with ObjectExpression | ArrayExpression => true | _ => false end.

Definition isFunctionLike (dep : Element) : bool :=
  match dep with FunctionExpression | ArrowFunctionExpression => true | _ => false end.

(** The callback of [dependencies.forEach], with [bound] telling whether
    [path.scope.getBinding(name)] finds a binding. *)
Definition inspect (bound : string -> bool) (fix_ : bool)
           (found : Findings) (dep : option Element) (index : nat) : Findings :=
  match dep with
  | None => found
  | Some dep =>
      let found :=
        if isLiteral dep then
          mkFindings
            (push (issues found)
                  ("Dependency at index " ++ indexToString index
                   ++ " is an object/array literal that will be recreated on every render"))
            (if fix_ then
               push (fixes found)
                    ("Consider wrapping dependency at index " ++ indexToString index
                     ++ " with useMemo")
             else fixes found)
        else found in
      let found :=
        if isFunctionLike dep then
          mkFindings
            (push (issues found)
                  ("Dependency at index " ++ indexToString index
                   ++ " is a function expression that will be recreated on every render"))
            (if fix_ then
               push (fixes found)
                    ("Consider wrapping dependency at index " ++ indexToString index
                     ++ " with useCallback")
             else fixes found)
        else found in
      match dep with
      | Identifier name =>
          if negb (bound name) then
            mkFindings
              (push (issues found)
                    ("Dependency '" ++ name ++ "' at index " ++ indexToString index
                     ++ " is not defined in scope"))
              (fixes found)
          else found
      | _ => found
      end
  end.

(** [filename || 'unknown'] and [line || 'unknown'] *)
Definition filenameText (state : PluginState) : string :=
  match filename state with
  | Some name => if truthyString name then name else "unknown"
  | None => "unknown"
  end.

Definition lineText (node : CallExpression) : string :=
  match line node with
  | Some 0 | None => "unknown"
  | Some n => indexToString n
  end.

(** [analyzeDependencies(path, state)] *)
Definition analyzeDependencies (bound : string -> bool) (node : CallExpression)
           (state : PluginState) : Outcome :=
  if (List.length (arguments node) <? 2)%nat then Completed []
  else
    match nth 1 (arguments node) OtherArgument with
    | OtherArgument => Completed []
    | ArrayArgument dependencies =>
        let found :=
          forEach (inspect bound (autoFix state)) dependencies (mkFindings [] []) in
        if (0 <? List.length (issues found))%nat then
          let message :=
            "[babel-plugin-react-smart-effect] " ++ filenameText state ++ ":"
            ++ lineText node ++ Reporting.newline
            ++ Reporting.join Reporting.newline (issues found) in
          if warnOnly state then
            Completed
              (Reporting.ConsoleWarn message
               :: (if autoFix state && (0 <? List.length (fixes found))%nat
                   then map (fun text => Reporting.ConsoleLog text []) (fixes found)
                   else []))
          else CodeFrameError message
        else Completed []
    end.

(** The names the visitor looks for. *)
Definition isHookName (name : string) : bool :=
  String.eqb name "useSmartEffect"
  || String.eqb name "useDeepEffect"
  || String.eqb name "useDebugEffect"
  || String.eqb name "useSmartLayoutEffect".

(** The [CallExpression] visitor. *)
Definition visitCallExpression (bound : string -> bool) (node : CallExpression)
           (state : PluginState) : Outcome :=
  match callee node with
  | IdentifierCallee name =>
      if isHookName name then analyzeDependencies bound node state
      else Completed []
  | OtherCallee => Completed []
  end.

(** Which elements draw an issue. *)
Definition flagged (bound : string -> bool) (dep : option Element) : bool :=
  match dep with
  | Some (Identifier name) => negb (bound name)
  | Some dep => isLiteral dep || isFunctionLike dep
  | None => false
  end.

(** Which elements draw a fix. *)
Definition fixable (dep : option Element) : bool :=
  match dep with
  | Some dep => isLiteral dep || isFunctionLike dep
  | None => false
  end.




End Babel.

(* ================================================================= *)
(** ** More notions and sample values *)

Module MoreSamples.

(** A store files every report under its own identifier, once. *)
Definition filedById (m : ReportMap) : Prop :=
  NoDup (map fst m) /\ Forall (fun entry => fst entry = DevTools.id (snd entry)) m.

(** A store holding [effect_0] ... [effect_999], oldest first. *)
Definition fullStore : DevToolsState :=
  mkState (map (fun k => (generatedId k, sampleReport (generatedId k))) (seq 0 1000)) true.

(** A report of a skipped run under the identifier [a]. *)
Definition skippedReport : EffectReport :=
  mkReport "a" false (mkReportDependencies [num 1] [num 1] [false]) 5 0.

(** A render at some time, outside a browser. *)
Definition sampleInputs : SmartEffect.RenderInputs :=
  SmartEffect.mkInputs 1700000000000 "k3j9x0a1b" 1700000000001 NoGlobal.

Definition namedOptions : UseSmartEffectOptions :=
  mkOptions false false effect false None (Some "fetch-user").



End MoreSamples.
Export MoreSamples.

(* ================================================================= *)
(** ** The change detector: absent and mismatched sequences *)

Section Detector.

Variable options : UseSmartEffectOptions.
Variable refs : HookRefs.

Lemma shouldRun_first_render (deps : option DependencyList) :
  isFirstRender refs = true ->
  shouldRun options refs deps = Ok (negb (skipFirstRender options)).
Proof.
  intros Hfirst. unfold shouldRun. now rewrite Hfirst.
Qed.

Lemma shouldRun_custom (compare : DependencyList -> DependencyList -> bool)
      (next : DependencyList) :
  isFirstRender refs = false ->
  compareFunction options = Some compare ->
  shouldRun options refs (Some next)
  = Ok (negb (compare (orEmpty (prevDepsRef refs)) next)).
Proof.
  intros Hfirst Hcmp. unfold shouldRun. rewrite Hfirst, Hcmp. reflexivity.
Qed.

Lemma shouldRun_deep (next : DependencyList) :
  isFirstRender refs = false ->
  compareFunction options = None ->
  deepCompare options = true ->
  shouldRun options refs (Some next)
  = (unchanged <- deepCompareDeps (prevDepsRef refs) (Some next) ;; Ok (negb unchanged)).
Proof.
  intros Hfirst Hcmp Hdeep. unfold shouldRun. rewrite Hfirst, Hcmp, Hdeep. reflexivity.
Qed.

Lemma shouldRun_identity (prev next : DependencyList) :
  isFirstRender refs = false ->
  compareFunction options = None ->
  deepCompare options = false ->
  prevDepsRef refs = Some prev ->
  shouldRun options refs (Some next)
  = Ok (negb (List.length prev =? List.length next)%nat
        || negb (every (fun dep index => objectIs dep (JS.index prev index)) next)).
Proof.
  intros Hfirst Hcmp Hdeep Hprev. unfold shouldRun.
  rewrite Hfirst, Hcmp, Hdeep, Hprev. simpl.
  destruct (List.length prev =? List.length next)%nat; reflexivity.
Qed.

End Detector.

Lemma deepCompareDeps_present (prev next : DependencyList) :
  deepCompareDeps (Some prev) (Some next)
  = Ok ((List.length prev =? List.length next)%nat
        && every (fun p index =>
                    if isObjectLike p then isEqual p (JS.index next index)
                    else objectIs p (JS.index next index)) prev).
Proof.
  unfold deepCompareDeps. simpl.
  destruct (List.length prev =? List.length next)%nat; reflexivity.
Qed.

(** C1 (as amended).  When the previous and the next sequence differ in
    length, the identity and the deep strategy report a change; a custom
    predicate is asked instead, with both sequences, and the detector
    reports the negation of its answer whatever the lengths are. *)
Theorem length_mismatch_changed
        (options : UseSmartEffectOptions) (refs : HookRefs)
        (prev next : DependencyList) :
  isFirstRender refs = false ->
  prevDepsRef refs = Some prev ->
  List.length prev <> List.length next ->
  shouldRun options refs (Some next)
  = Ok match strategyOf options with
       | Custom compare => negb (compare prev next)
       | Identity | Deep => true
       end.
Proof.
  intros Hfirst Hprev Hlen.
  apply Nat.eqb_neq in Hlen.
  unfold strategyOf.
  destruct (compareFunction options) as [compare|] eqn:Hcmp.
  - rewrite (shouldRun_custom _ _ compare) by assumption.
    now rewrite Hprev.
  - destruct (deepCompare options) eqn:Hdeep.
    + rewrite shouldRun_deep by assumption.
      rewrite Hprev, deepCompareDeps_present, Hlen. reflexivity.
    + rewrite (shouldRun_identity _ _ prev) by assumption.
      now rewrite Hlen.
Qed.

Lemma length_mismatch_changed_witness :
  shouldRun defaultOptions (after (Some [num 1])) (Some [num 1; num 2]) = Ok true.
Proof.
  apply (length_mismatch_changed defaultOptions (after (Some [num 1])) [num 1] [num 1; num 2]).
  - reflexivity.
  - reflexivity.
  - simpl. lia.
Defined.

(** C1 fails as stated: with the custom predicate of the test suite the
    detector reports no change between [[1, 'ignored']] and [[1]], two
    sequences of different lengths, on the render that follows the one
    with [[1, 'ignored']]. *)
Lemma length_mismatch_custom_unchanged :
  let prev := [num 1; VString "ignored"] in
  let next := [num 1] in
  renders [(customOptions, Some prev)] initialRefs = Ok (after (Some prev))
  /\ List.length prev <> List.length next
  /\ shouldRun customOptions (after (Some prev)) (Some next) = Ok false.
Proof.
  cbv zeta. split; [reflexivity | split; [simpl; lia | reflexivity]].
Qed.

(** C2 (as amended).  When no previous sequence is kept: on the first
    render the detector reports a change unless [skipFirstRender] is set,
    whatever the strategy; on a later render the identity and the deep
    strategy report a change, and a custom predicate is asked about the
    empty sequence and the next one. *)
Theorem absent_previous_changed
        (options : UseSmartEffectOptions) (refs : HookRefs)
        (next : DependencyList) :
  prevDepsRef refs = None ->
  shouldRun options refs (Some next)
  = Ok (if isFirstRender refs then negb (skipFirstRender options)
        else match strategyOf options with
             | Custom compare => negb (compare [] next)
             | Identity | Deep => true
             end).
Proof.
  intros Hprev.
  destruct (isFirstRender refs) eqn:Hfirst.
  - now apply shouldRun_first_render.
  - unfold strategyOf.
    destruct (compareFunction options) as [compare|] eqn:Hcmp.
    + rewrite (shouldRun_custom _ _ compare) by assumption.
      now rewrite Hprev.
    + destruct (deepCompare options) eqn:Hdeep.
      * rewrite shouldRun_deep by assumption.
        now rewrite Hprev.
      * unfold shouldRun. now rewrite Hfirst, Hcmp, Hdeep, Hprev.
Qed.

Lemma absent_previous_changed_witness :
  shouldRun deepOptions initialRefs (Some [num 1]) = Ok true.
Proof.
  apply (absent_previous_changed deepOptions initialRefs [num 1]).
  reflexivity.
Defined.

(** C2 fails as stated, in two ways: the first render under
    [skipFirstRender] reports no change, and so does a custom predicate
    that accepts the empty sequence, on the render that follows one
    without dependencies. *)
Lemma absent_previous_unchanged :
  shouldRun skipOptions initialRefs (Some [num 1]) = Ok false
  /\ renders [(customOptions, None)] initialRefs = Ok (after None)
  /\ shouldRun customOptions (after None) (Some [VUndefined; num 2]) = Ok false.
Proof.
  repeat split.
Qed.

(* ================================================================= *)
(** ** Array iteration *)

Lemma everyFrom_spec {A : Type} (f : A -> nat -> bool) (a : list A) (i : nat) :
  everyFrom f i a = true
  <-> forall k x, nth_error a k = Some x -> f x (i + k) = true.
Proof.
  revert i. induction a as [|y a IH]; intros i; simpl.
  - split; [intros _ [|k] x Hk; discriminate | reflexivity].
  - destruct (f y i) eqn:Hy.
    + rewrite IH. split.
      * intros H [|k] x Hk; simpl in Hk.
        -- injection Hk as <-. now rewrite Nat.add_0_r.
        -- rewrite Nat.add_succ_r. now apply H.
      * intros H k x Hk. specialize (H (S k) x Hk).
        now rewrite Nat.add_succ_r in H.
    + split; [discriminate |].
      intros H. specialize (H 0 y eq_refl).
      rewrite Nat.add_0_r in H. congruence.
Qed.

Lemma every_spec {A : Type} (f : A -> nat -> bool) (a : list A) :
  every f a = true <-> forall k x, nth_error a k = Some x -> f x k = true.
Proof.
  unfold every. now rewrite everyFrom_spec.
Qed.

Lemma index_nth_error (a : list value) (k : nat) (x : value) :
  nth_error a k = Some x -> JS.index a k = x.
Proof.
  intros H. unfold JS.index. now apply nth_error_nth.
Qed.

Lemma Forall2_nth_error_r {A B : Type} (R : A -> B -> Prop) (l : list A) (l' : list B) :
  Forall2 R l l' ->
  forall k y, nth_error l' k = Some y -> exists x, nth_error l k = Some x /\ R x y.
Proof.
  induction 1 as [|x y l l' Hxy _ IH]; intros [|k] z Hk; simpl in *; try discriminate.
  - injection Hk as <-. now exists x.
  - now apply IH.
Qed.

(* ================================================================= *)
(** ** Identity comparison *)

Lemma SFeqb_refl (x : number) : isNaN x = false -> SFeqb x x = true.
Proof.
  unfold SFeqb, SFcompare.
  destruct x as [s|s| |s m e]; simpl; try discriminate; intros _.
  - reflexivity.
  - now destruct s.
  - rewrite Z.compare_refl.
    fold (Pos.compare m m). rewrite Pos.compare_refl.
    now destruct s.
Qed.

Lemma numberSameValue_refl (x : number) : numberSameValue x x = true.
Proof.
  destruct x as [s|s| |s m e]; simpl.
  - now destruct s.
  - now apply SFeqb_refl.
  - reflexivity.
  - now apply SFeqb_refl.
Qed.

Lemma objectIs_refl (v : value) : objectIs v v = true.
Proof.
  destruct v; simpl;
    auto using numberSameValue_refl, Bool.eqb_reflx, String.eqb_refl,
               Pos.eqb_refl, Z.eqb_refl.
Qed.

Lemma identical_objectIs (p n : value) : identical p n -> objectIs n p = true.
Proof.
  destruct p, n; simpl; intros H;
    try contradiction; try discriminate;
    try (injection H as <-); subst;
    auto using numberSameValue_refl, Bool.eqb_reflx, String.eqb_refl,
               Pos.eqb_refl, Z.eqb_refl.
Qed.

Lemma strategyOf_identity (options : UseSmartEffectOptions) :
  strategyOf options = Identity ->
  compareFunction options = None /\ deepCompare options = false.
Proof.
  unfold strategyOf.
  destruct (compareFunction options); [discriminate |].
  destruct (deepCompare options); [discriminate | auto].
Qed.

Lemma strategyOf_deep (options : UseSmartEffectOptions) :
  strategyOf options = Deep ->
  compareFunction options = None /\ deepCompare options = true.
Proof.
  unfold strategyOf.
  destruct (compareFunction options); [discriminate |].
  destruct (deepCompare options); [auto | discriminate].
Qed.

(** C6.  Under the identity strategy a next sequence whose elements are
    pairwise identical to those of the previous one (same reference for
    structured values, same primitive value for primitives) is reported
    unchanged. *)
Theorem identity_copy_unchanged
        (options : UseSmartEffectOptions) (refs : HookRefs)
        (prev next : DependencyList) :
  isFirstRender refs = false ->
  strategyOf options = Identity ->
  prevDepsRef refs = Some prev ->
  Forall2 identical prev next ->
  shouldRun options refs (Some next) = Ok false.
Proof.
  intros Hfirst Hstrategy Hprev Hsame.
  destruct (strategyOf_identity _ Hstrategy) as [Hcmp Hdeep].
  rewrite (shouldRun_identity _ _ prev) by assumption.
  rewrite (Forall2_length Hsame), Nat.eqb_refl. simpl.
  assert (every (fun dep index => objectIs dep (JS.index prev index)) next = true) as ->.
  { apply every_spec. intros k x Hk.
    destruct (Forall2_nth_error_r _ _ _ Hsame k x Hk) as (p & Hp & Hpx).
    rewrite (index_nth_error _ _ _ Hp).
    now apply identical_objectIs. }
  reflexivity.
Qed.

Lemma identity_copy_unchanged_witness :
  shouldRun defaultOptions
            (after (Some [num 1; VString "test"; VBoolean true; VNumber NaN; objAB 1 2]))
            (Some [num 1; VString "test"; VBoolean true; VNumber NaN; objAB 1 2])
  = Ok false.
Proof.
  apply (identity_copy_unchanged defaultOptions
           (after (Some [num 1; VString "test"; VBoolean true; VNumber NaN; objAB 1 2]))
           [num 1; VString "test"; VBoolean true; VNumber NaN; objAB 1 2]).
  - reflexivity.
  - reflexivity.
  - reflexivity.
  - repeat constructor.
Defined.

(* ================================================================= *)
(** ** Normal termination *)

Lemma deepCompareDeps_returns (prevDeps nextDeps : option DependencyList) :
  exists unchanged, deepCompareDeps prevDeps nextDeps = Ok unchanged.
Proof.
  destruct prevDeps as [prev|], nextDeps as [next|].
  - rewrite deepCompareDeps_present. eauto.
  - now exists false.
  - now exists false.
  - now exists true.
Qed.

Lemma shouldRun_returns (options : UseSmartEffectOptions) (refs : HookRefs)
      (deps : option DependencyList) :
  exists run, shouldRun options refs deps = Ok run.
Proof.
  unfold shouldRun.
  destruct (isFirstRender refs); [eauto |].
  destruct deps as [next|]; simpl; [| eauto].
  destruct (compareFunction options) as [compare|]; [eauto |].
  destruct (deepCompare options).
  - destruct (deepCompareDeps_returns (prevDepsRef refs) (Some next)) as [b ->].
    simpl. eauto.
  - destruct (prevDepsRef refs) as [prev|]; simpl; [| eauto].
    destruct (List.length prev =? List.length next)%nat; simpl; eauto.
Qed.

(** C9 (as amended).  The change detector returns normally on every input,
    an absent or empty previous or next sequence included, and so does the
    categorizer on every sequence it is given, the empty one included; the
    hook calls the categorizer only on a present sequence. *)
Theorem detector_and_categorizer_return :
  (forall prevDeps nextDeps, exists unchanged,
      deepCompareDeps prevDeps nextDeps = Ok unchanged)
  /\ (forall options refs deps, exists run, shouldRun options refs deps = Ok run)
  /\ (forall deps, analyzeDepsJS (Some deps) = Ok (analyzeDeps deps))
  /\ (forall options deps, exists analysis, debugAnalysis options deps = Ok analysis)
  /\ deepCompareDeps None None = Ok true
  /\ (forall next, deepCompareDeps None (Some next) = Ok false)
  /\ (forall prev, deepCompareDeps (Some prev) None = Ok false)
  /\ deepCompareDeps (Some []) (Some []) = Ok true
  /\ analyzeDeps [] = emptyAnalysis.
Proof.
  split; [exact deepCompareDeps_returns |].
  split; [exact shouldRun_returns |].
  split; [reflexivity |].
  split.
  { intros options [deps|]; unfold debugAnalysis.
    - destruct (debug options); simpl; eauto.
    - rewrite Bool.andb_false_r. eauto. }
  repeat split.
Qed.

(** C9 fails as stated on the categorizer: its parameter type has no
    absent sequence, and applied to [undefined] it raises a TypeError. *)
Lemma categorizer_absent_raises :
  analyzeDepsJS None = Throw TypeError.
Proof.
  reflexivity.
Qed.

(* ================================================================= *)
(** ** The categorizer *)

Lemma forEachFrom_analyzeDep (deps : DependencyList) :
  forall (i : nat) (a : DependencyAnalysis),
    forEachFrom analyzeDep i deps a
    = mkAnalysis (primitives a ++ filter isPrimitiveDep deps)
                 (objects a ++ filter isObjectLike deps)
                 (functions a ++ filter isFunctionDep deps)
                 (potentiallyMissing a ++ advisoriesFrom i deps)
                 (redundant a).
Proof.
  induction deps as [|v deps IH]; intros i a; simpl.
  - destruct a; simpl. now rewrite !app_nil_r.
  - rewrite IH.
    destruct v; simpl; unfold push; rewrite <- ?app_assoc; reflexivity.
Qed.

Lemma analyzeDeps_buckets (deps : DependencyList) :
  analyzeDeps deps
  = mkAnalysis (filter isPrimitiveDep deps) (filter isObjectLike deps)
               (filter isFunctionDep deps) (advisoriesFrom 0 deps) [].
Proof.
  unfold analyzeDeps, forEach. now rewrite forEachFrom_analyzeDep.
Qed.

Lemma filter_all_length {A : Type} (f : A -> bool) (l : list A) :
  List.length (filter f l) = List.length l <-> Forall (fun x => f x = true) l.
Proof.
  induction l as [|x l IH]; simpl.
  - split; [constructor | reflexivity].
  - pose proof (filter_length_le f l) as Hle.
    destruct (f x) eqn:Hx; simpl.
    + split.
      * intros H. constructor; [assumption | apply IH; lia].
      * intros H. inversion H; subst. f_equal. now apply IH.
    + split; [lia |].
      intros H. inversion H; subst. congruence.
Qed.

Lemma bucket_split (deps : DependencyList) :
  List.length (filter isPrimitiveDep deps)
  + List.length (filter isObjectLike deps)
  + List.length (filter isFunctionDep deps)
  = List.length (filter (fun v => negb (isSymbolOrBigInt v)) deps).
Proof.
  induction deps as [|v deps IH]; [reflexivity |].
  destruct v; simpl in *; lia.
Qed.

(** C5.  The categorizer walks the sequence once and keeps the input order
    in every bucket: [null] and the string, number, boolean and undefined
    values are exactly the primitive bucket and get no advisory; arrays and
    the other objects are exactly the structured bucket, an array at index
    [i] getting "Array at index i" and an object "Object at index i". *)
Theorem categorizer_buckets :
  (forall deps,
      primitives (analyzeDeps deps) = filter isPrimitiveDep deps
      /\ objects (analyzeDeps deps) = filter isObjectLike deps
      /\ potentiallyMissing (analyzeDeps deps) = advisoriesFrom 0 deps)
  /\ analyzeDeps [num 1; VString "s"; VBoolean true; VNull; VUndefined]
     = mkAnalysis [num 1; VString "s"; VBoolean true; VNull; VUndefined] [] [] [] []
  /\ analyzeDeps [objA 1 (ofZ 1); VArray 2 [num 1; num 2; num 3]]
     = mkAnalysis [] [objA 1 (ofZ 1); VArray 2 [num 1; num 2; num 3]] []
                  ["Object at index 0"; "Array at index 1"] [].
Proof.
  split; [| split; reflexivity].
  intros deps. rewrite analyzeDeps_buckets. simpl. auto.
Qed.

(** C10.  Every element is appended to at most one of the three value
    buckets, and to none, with no advisory, when its type is [symbol] or
    [bigint]; so the buckets hold exactly the elements of other types, and
    their sizes add up to the length of the input precisely when no element
    is a symbol or a bigint. *)
Theorem categorizer_partition :
  (forall analysis dep index,
      bucketed (analyzeDep analysis dep index)
      = bucketed analysis + (if isSymbolOrBigInt dep then 0 else 1))
  /\ (forall analysis dep index,
         isSymbolOrBigInt dep = true -> analyzeDep analysis dep index = analysis)
  /\ (forall deps,
         primitives (analyzeDeps deps) = filter isPrimitiveDep deps
         /\ objects (analyzeDeps deps) = filter isObjectLike deps
         /\ functions (analyzeDeps deps) = filter isFunctionDep deps)
  /\ (forall deps,
         bucketed (analyzeDeps deps) = List.length deps
         <-> Forall (fun v => typeOf v <> TSymbol /\ typeOf v <> TBigInt) deps).
Proof.
  repeat split.
  - destruct dep; unfold bucketed; cbn -[Nat.add]; unfold push;
      rewrite ?length_app; simpl; lia.
  - destruct dep; simpl; intros H; try discriminate; reflexivity.
  - now rewrite analyzeDeps_buckets.
  - now rewrite analyzeDeps_buckets.
  - now rewrite analyzeDeps_buckets.
  - rewrite analyzeDeps_buckets. unfold bucketed. simpl.
    rewrite bucket_split. intros H.
    apply filter_all_length in H.
    eapply Forall_impl; [| exact H].
    intros v Hv. unfold isSymbolOrBigInt in Hv.
    destruct (typeOf v); simpl in Hv; split; congruence.
  - rewrite analyzeDeps_buckets. unfold bucketed. simpl.
    rewrite bucket_split. intros H.
    apply filter_all_length.
    eapply Forall_impl; [| exact H].
    intros v [Hs Hb]. unfold isSymbolOrBigInt.
    destruct (typeOf v); simpl; congruence.
Qed.

Lemma categorizer_partition_witness :
  analyzeDep emptyAnalysis (VSymbol 1) 0 = emptyAnalysis
  /\ bucketed (analyzeDeps [num 1; objA 1 (ofZ 1); namedFn]) = 3.
Proof.
  destruct categorizer_partition as (_ & Hskip & _ & Hsum).
  split.
  - apply Hskip. reflexivity.
  - apply (Hsum [num 1; objA 1 (ofZ 1); namedFn]).
    repeat constructor; discriminate.
Defined.

(** C4, evaluated.  [[namedFn, () => {}]] is categorized as the
    specification says.  A function with a name whose body holds an arrow
    function is reported as anonymous, although its name resolves, is not
    "anonymous", and its source starts with [function double(]: the test
    looks for [=>] anywhere in the source text. *)
Theorem named_function_reported_anonymous :
  analyzeDeps [namedFn; anonymousFn]
  = mkAnalysis [] [] [namedFn; anonymousFn]
               ["Named function at index 0"; "Anonymous function at index 1"] []
  /\ analyzeDeps [doubleFn]
     = mkAnalysis [] [] [doubleFn] ["Anonymous function at index 0"] []
  /\ truthyString (functionName doubleFn) = true
  /\ String.eqb (functionName doubleFn) "anonymous" = false
  /\ matchesNamelessFunction (functionToString doubleFn) = false
  /\ startsWith "function double(" (functionToString doubleFn) = true
  /\ includes "=>" (functionToString doubleFn) = true.
Proof.
  repeat split.
Qed.

(* ================================================================= *)
(** ** The report store *)

Lemma set_size (key : string) (report : EffectReport) (m : ReportMap) :
  size (set key report m) <= S (size m).
Proof.
  unfold size. induction m as [|[k r] m IH]; simpl; [lia |].
  destruct (String.eqb k key); simpl; lia.
Qed.

Lemma set_keysNonEmpty (key : string) (report : EffectReport) (m : ReportMap) :
  key <> "" -> keysNonEmpty m -> keysNonEmpty (set key report m).
Proof.
  unfold keysNonEmpty. intros Hkey.
  induction m as [|[k r] m IH]; simpl; intros Hm.
  - now repeat constructor.
  - inversion Hm; subst.
    destruct (String.eqb k key); constructor; auto.
Qed.

Lemma truthyString_nonempty (s : string) : s <> "" -> truthyString s = true.
Proof.
  destruct s; [congruence | reflexivity].
Qed.

(** Past the cap, the entry inserted first is the one dropped. *)
Lemma limitReports_evicts_oldest (key : string) (report : EffectReport) (rest : ReportMap) :
  key <> "" ->
  maxReports < size ((key, report) :: rest) ->
  limitReports ((key, report) :: rest) = rest.
Proof.
  intros Hkey Hsize. unfold limitReports.
  apply Nat.ltb_lt in Hsize. rewrite Hsize. simpl.
  now rewrite (truthyString_nonempty _ Hkey), String.eqb_refl.
Qed.

Lemma limitReports_cap (m : ReportMap) :
  keysNonEmpty m ->
  size m <= S maxReports ->
  size (limitReports m) <= maxReports /\ keysNonEmpty (limitReports m).
Proof.
  intros Hkeys Hsize. unfold limitReports.
  destruct (maxReports <? size m)%nat eqn:Hover.
  - destruct m as [|[k r] rest]; simpl.
    + split; [unfold size, maxReports; simpl; lia | assumption].
    + inversion Hkeys as [|? ? Hk Hrest]; subst. simpl in Hk.
      rewrite (truthyString_nonempty _ Hk). simpl. rewrite String.eqb_refl.
      split; [unfold size in *; simpl in Hsize; lia | assumption].
  - apply Nat.ltb_ge in Hover. auto.
Qed.

(** X1.  The cap holds from call to call as long as every report has a
    non-empty identifier and the DevTools global, if any, has a
    [postMessage]: a store of at most 1000 reports under non-empty
    identifiers is left as such a store by [reportToDevTools]. *)
Theorem reportToDevTools_cap (global : DevToolsGlobal) (report : EffectReport)
      (st : DevToolsState) :
  global <> panelGlobal ->
  id report <> "" ->
  keysNonEmpty (effects st) ->
  size (effects st) <= maxReports ->
  let st' := fst (reportToDevTools global report st) in
  size (effects st') <= maxReports /\ keysNonEmpty (effects st').
Proof.
  intros Hglobal Hid Hkeys Hsize. unfold reportToDevTools.
  destruct (isEnabled st); simpl; [| auto].
  assert (size (limitReports (set (id report) report (effects st))) <= maxReports
          /\ keysNonEmpty (limitReports (set (id report) report (effects st)))) as Hlimit.
  { apply limitReports_cap.
    - now apply set_keysNonEmpty.
    - pose proof (set_size (id report) report (effects st)). lia. }
  destruct global as [|[|]]; simpl; auto.
  now contradiction Hglobal.
Qed.

Lemma reportToDevTools_cap_witness :
  size (effects (fst (reportToDevTools NoGlobal (sampleReport "effect_1") enabledEmpty)))
  <= maxReports.
Proof.
  apply (reportToDevTools_cap NoGlobal (sampleReport "effect_1") enabledEmpty).
  - discriminate.
  - discriminate.
  - constructor.
  - unfold maxReports. simpl. lia.
Defined.

(** C8, evaluated.  With reporting on and no DevTools global, a report
    stored under the empty identifier followed by a thousand reports under
    other identifiers leaves 1001 reports in the store, the oldest still
    first: [if (oldestKey)] takes the empty key for a missing one.  With a
    first identifier that is not empty the same calls leave 1000 reports
    and the oldest is gone.  With the object [initializeDevToolsPanel]
    installs as the global, every call ends in a TypeError after storing
    its report, and the store grows past the cap as well. *)
Theorem empty_identifier_defeats_cap :
  let stuck := reportAll NoGlobal (reportsFrom "" 1000) enabledEmpty in
  let capped := reportAll NoGlobal (reportsFrom "effect_0" 1000) enabledEmpty in
  let thrown := reportAll panelGlobal (reportsFrom "effect_0" 1000) enabledEmpty in
  size (effects stuck) = 1001
  /\ firstKey (effects stuck) = Some ""
  /\ size (effects capped) = 1000
  /\ firstKey (effects capped) = Some "effect_1"
  /\ size (effects thrown) = 1001
  /\ snd (reportToDevTools panelGlobal (sampleReport "effect_0") enabledEmpty)
     = Throw TypeError.
Proof.
  cbv zeta.
  split; [vm_compute; reflexivity |].
  split; [vm_compute; reflexivity |].
  split; [vm_compute; reflexivity |].
  split; [vm_compute; reflexivity |].
  split; vm_compute; reflexivity.
Qed.

(* ================================================================= *)
(** ** Deep comparison and structural equality *)

Lemma numberSameValue_cases (a b : number) :
  numberSameValue a b = true ->
  numberEqual a b = true \/ (isNaN a = true /\ isNaN b = true).
Proof.
  unfold numberEqual.
  destruct a as [s|s| |s m e], b as [s'|s'| |s' m' e']; simpl; auto.
Qed.

Lemma numberSameValueZero_refl (x : number) : numberSameValueZero x x = true.
Proof.
  unfold numberSameValueZero.
  destruct (isNaN x) eqn:Hx; [reflexivity |].
  simpl. now apply SFeqb_refl.
Qed.

Lemma nodes_self (v : value) : In v (nodes v).
Proof. destruct v; simpl; auto. Qed.

Lemma getProp_In (key : string) (props : list (string * value)) (y : value) :
  getProp key props = Some y -> In (key, y) props.
Proof.
  induction props as [|[k x] props IH]; simpl; [discriminate |].
  destruct (String.eqb key k) eqn:Hk.
  - apply String.eqb_eq in Hk. intros [= <-]. subst. now left.
  - auto.
Qed.

Lemma In_getProp (key : string) (props : list (string * value)) (x : value) :
  NoDup (map fst props) -> In (key, x) props -> getProp key props = Some x.
Proof.
  induction props as [|[k y] props IH]; simpl; [contradiction |].
  intros Hnodup [Hin | Hin].
  - injection Hin as -> ->. now rewrite String.eqb_refl.
  - inversion Hnodup as [|? ? Hnotin Hrest]; subst.
    destruct (String.eqb key k) eqn:Hk.
    + apply String.eqb_eq in Hk. subst.
      exfalso. apply Hnotin. now apply (in_map fst) in Hin.
    + auto.
Qed.

Lemma agreeOn_incl (l l' r r' : list value) :
  incl l' l -> incl r' r -> agreeOn l r -> agreeOn l' r'.
Proof.
  intros Hl Hr H a b ref Ha Hb. apply H; auto.
Qed.

Lemma keysOn_incl (l l' : list value) : incl l' l -> keysOn l -> keysOn l'.
Proof.
  intros Hl H r ps Hin. apply (H r). auto.
Qed.

Lemma nodes_prop_incl (k : string) (x : value) (props : list (string * value)) :
  In (k, x) props -> incl (nodes x) (flat_map (fun p => nodes (snd p)) props).
Proof.
  intros Hin a Ha. apply in_flat_map. exists (k, x). auto.
Qed.

Lemma nodes_elem_incl (x : value) (elems : list value) :
  In x elems -> incl (nodes x) (flat_map nodes elems).
Proof.
  intros Hin a Ha. apply in_flat_map. exists x. auto.
Qed.


Lemma list_all_forall {A : Type} (P : A -> Prop) (l : list A) :
  JS.list_all A P l -> forall x, In x l -> P x.
Proof.
  induction 1 as [|a Ha l _ IH]; simpl; intros x Hx; [contradiction |].
  destruct Hx as [<- | Hx]; auto.
Qed.

Lemma props_all_forall (P : value -> Prop) (props : list (string * value)) :
  JS.list_all (string * value) (JS.prod_all string (fun _ => unit) value P) props ->
  forall k x, In (k, x) props -> P x.
Proof.
  induction 1 as [|p Hp l _ IH]; simpl; intros k x Hx; [contradiction |].
  destruct Hx as [-> | Hx]; [| eauto].
  now inversion Hp.
Qed.

Section MemberLemmas.

Variables f g : value -> value -> bool.

Lemma equalArrays_refl (xs : list value) :
  (forall x, In x xs -> f x x = true) -> equalArrays f xs xs = true.
Proof.
  induction xs as [|x xs IH]; simpl; intros H; [reflexivity |].
  rewrite H by auto. simpl. auto.
Qed.

Lemma equalArrays_impl (xs ys : list value) :
  (forall x y, In x xs -> In y ys -> f x y = true -> g x y = true) ->
  equalArrays f xs ys = true -> equalArrays g xs ys = true.
Proof.
  revert ys. induction xs as [|x xs IH]; intros [|y ys] H; simpl; try discriminate; auto.
  intros Hf. apply andb_true_iff in Hf as [Hxy Hrest].
  simpl in H. rewrite (H x y) by auto. simpl.
  apply IH; auto.
Qed.

Lemma equalArrays_length (xs ys : list value) :
  equalArrays f xs ys = true -> List.length xs = List.length ys.
Proof.
  revert ys. induction xs as [|x xs IH]; intros [|y ys]; simpl; try discriminate; auto.
  intros H. apply andb_true_iff in H as [_ H]. f_equal. auto.
Qed.

Lemma equalArrays_nth (xs ys : list value) :
  equalArrays f xs ys = true <->
  List.length xs = List.length ys
  /\ forall k x, nth_error xs k = Some x -> f x (JS.index ys k) = true.
Proof.
  revert ys. induction xs as [|x xs IH]; intros [|y ys]; simpl.
  - split; [intros _; split; [reflexivity | intros [|k] x; discriminate] | reflexivity].
  - split; [discriminate | intros [H _]; discriminate].
  - split; [discriminate | intros [H _]; discriminate].
  - rewrite andb_true_iff, IH. split.
    + intros (Hxy & Hlen & Hrest). split; [congruence |].
      intros [|k] z Hk; simpl in Hk.
      * now injection Hk as <-.
      * now apply Hrest.
    + intros (Hlen & H). split; [exact (H 0 x eq_refl) | split; [congruence |]].
      intros k z Hk. exact (H (S k) z Hk).
Qed.

Lemma equalProps_impl (qs ps : list (string * value)) :
  (forall k x y, In (k, x) ps -> In (k, y) qs -> f x y = true -> g x y = true) ->
  equalProps f qs ps = true -> equalProps g qs ps = true.
Proof.
  induction ps as [|[k x] ps IH]; simpl; intros H; [reflexivity |].
  destruct (getProp k qs) as [y|] eqn:Hy; [| discriminate].
  intros Hf. apply andb_true_iff in Hf as [Hxy Hrest].
  rewrite (H k x y); auto using getProp_In. simpl.
  apply IH; auto. intros k' x' y' Hin. apply H. auto.
Qed.

Lemma equalProps_refl (all ps : list (string * value)) :
  NoDup (map fst all) -> incl ps all ->
  (forall k x, In (k, x) ps -> f x x = true) ->
  equalProps f all ps = true.
Proof.
  intros Hnodup. induction ps as [|[k x] ps IH]; simpl; intros Hincl H; [reflexivity |].
  rewrite (In_getProp k all x) by (auto; apply Hincl; now left).
  rewrite (H k x) by auto. simpl.
  apply IH; [eapply incl_cons_inv; eauto | intros; eapply H; eauto].
Qed.

End MemberLemmas.

Section Reflexive.

Variable numEq : number -> number -> bool.
Hypothesis numEq_refl : forall x, numEq x x = true.

Lemma structurallyEqual_refl (v : value) :
  keysOn (nodes v) -> structurallyEqual numEq v v = true.
Proof.
  induction v as [ | | b | n | s | id | z | r name source | r xs IHxs | r ps IHps]
    using JS.value_ind; intros Hkeys; simpl;
    auto using Bool.eqb_reflx, String.eqb_refl, Pos.eqb_refl, Z.eqb_refl.
  - apply equalArrays_refl. intros x Hx.
    apply (list_all_forall _ _ IHxs x Hx).
    eapply keysOn_incl; [| exact Hkeys].
    simpl. apply incl_tl. now apply nodes_elem_incl.
  - rewrite Nat.eqb_refl. simpl.
    apply equalProps_refl.
    + apply (Hkeys r). apply nodes_self.
    + apply incl_refl.
    + intros k x Hx. apply (props_all_forall _ _ IHps k x Hx).
      eapply keysOn_incl; [| exact Hkeys].
      simpl. apply incl_tl. now apply (nodes_prop_incl k).
Qed.

End Reflexive.

Lemma sameness_to_isEqual (v : value) :
  forall w, structurallyEqual numberSameValue v w = true -> isEqual v w = true.
Proof.
  induction v as [ | | b | n | s | id | z | r name source | r xs IHxs | r ps IHps]
    using JS.value_ind; intros w Hw.
  all: try (destruct w; simpl in *; try discriminate; try rewrite Hw; reflexivity).
  - destruct w; simpl in *; try discriminate.
    destruct (numberSameValue_cases _ _ Hw) as [-> | [-> ->]]; auto using orb_true_r.
  - destruct w as [| | | | | | | |r' ys|]; simpl in *; try discriminate.
    apply orb_true_iff. right.
    eapply equalArrays_impl; [| exact Hw].
    intros x y Hx _. apply (list_all_forall _ _ IHxs x Hx).
  - destruct w as [| | | | | | | | |r' qs]; simpl in *; try discriminate.
    apply orb_true_iff. right.
    apply andb_true_iff in Hw as [Hlen Hw]. rewrite Hlen. simpl.
    eapply equalProps_impl; [| exact Hw].
    intros k x y Hx _. apply (props_all_forall _ _ IHps k x Hx).
Qed.

Lemma sameness_to_objectIs (v w : value) :
  isObjectLike v = false ->
  structurallyEqual numberSameValue v w = true -> objectIs v w = true.
Proof.
  destruct v, w; simpl; intros Hv H; try discriminate; assumption.
Qed.

Lemma numberEqual_sameValueZero (a b : number) :
  numberEqual a b || (isNaN a && isNaN b) = numberSameValueZero a b.
Proof.
  unfold numberSameValueZero, numberEqual. apply orb_comm.
Qed.

Lemma numberSameValue_sameValueZero (a b : number) :
  numberSameValue a b = true -> numberSameValueZero a b = true.
Proof.
  intros H. rewrite <- numberEqual_sameValueZero.
  destruct (numberSameValue_cases _ _ H) as [-> | [-> ->]]; auto using orb_true_r.
Qed.

Lemma isEqual_to_sameness (v : value) :
  forall w,
    agreeOn (nodes v) (nodes w) -> keysOn (nodes v) ->
    isEqual v w = true -> structurallyEqual numberSameValueZero v w = true.
Proof.
  induction v as [ | | b | n | s | id | z | r name source | r xs IHxs | r ps IHps]
    using JS.value_ind; intros w Hagree Hkeys Hw.
  all: try (destruct w; simpl in *; try discriminate;
            rewrite ?orb_false_r in Hw; assumption).
  - destruct w; simpl in *; try discriminate.
    now rewrite numberEqual_sameValueZero in Hw.
  - destruct w as [| | | | | | | |r' ys|]; simpl in Hw; try discriminate.
    destruct (Pos.eqb r r') eqn:Hr.
    + apply Pos.eqb_eq in Hr. subst r'.
      rewrite <- (Hagree (VArray r xs) (VArray r ys) r); auto using nodes_self.
      apply structurallyEqual_refl; auto using numberSameValueZero_refl.
    + simpl in Hw |- *.
      eapply equalArrays_impl; [| exact Hw].
      intros x y Hx Hy. apply (list_all_forall _ _ IHxs x Hx).
      * eapply agreeOn_incl; [| | exact Hagree]; simpl; apply incl_tl;
          now apply nodes_elem_incl.
      * eapply keysOn_incl; [| exact Hkeys]. simpl. apply incl_tl.
        now apply nodes_elem_incl.
  - destruct w as [| | | | | | | | |r' qs]; simpl in Hw; try discriminate.
    destruct (Pos.eqb r r') eqn:Hr.
    + apply Pos.eqb_eq in Hr. subst r'.
      rewrite <- (Hagree (VObject r ps) (VObject r qs) r); auto using nodes_self.
      apply structurallyEqual_refl; auto using numberSameValueZero_refl.
    + simpl in Hw |- *.
      apply andb_true_iff in Hw as [Hlen Hw]. rewrite Hlen. simpl.
      eapply equalProps_impl; [| exact Hw].
      intros k x y Hx Hy. apply (props_all_forall _ _ IHps k x Hx).
      * eapply agreeOn_incl; [| | exact Hagree]; simpl; apply incl_tl;
          eapply nodes_prop_incl; eauto.
      * eapply keysOn_incl; [| exact Hkeys]. simpl. apply incl_tl.
        eapply nodes_prop_incl; eauto.
Qed.

Lemma objectIs_to_sameness (v w : value) :
  isObjectLike v = false ->
  objectIs v w = true -> structurallyEqual numberSameValueZero v w = true.
Proof.
  destruct v, w; simpl; intros Hv H; try discriminate; try assumption.
  now apply numberSameValue_sameValueZero.
Qed.

Lemma index_In (a : list value) (k : nat) :
  k < List.length a -> In (JS.index a k) a.
Proof.
  intros H. unfold JS.index. now apply nth_In.
Qed.

(** C3 (as amended).  Under the deep strategy, for two sequences of the
    same length: when they are element-wise structurally equal, numbers
    being compared as [Object.is] compares them, no change is reported;
    and when they are read from one state of the heap and some element
    differs structurally even with +0 and -0 taken for equal, a change is
    reported. *)
Theorem deep_strategy_structural
        (options : UseSmartEffectOptions) (refs : HookRefs)
        (prev next : DependencyList) :
  isFirstRender refs = false ->
  strategyOf options = Deep ->
  prevDepsRef refs = Some prev ->
  List.length prev = List.length next ->
  (allStructurallyEqual numberSameValue prev next = true ->
   shouldRun options refs (Some next) = Ok false)
  /\ (snapshot (prev ++ next) ->
      allStructurallyEqual numberSameValueZero prev next = false ->
      shouldRun options refs (Some next) = Ok true).
Proof.
  intros Hfirst Hstrategy Hprev Hlen.
  destruct (strategyOf_deep _ Hstrategy) as [Hcmp Hdeep].
  rewrite shouldRun_deep by assumption.
  rewrite Hprev, deepCompareDeps_present, Hlen, Nat.eqb_refl. simpl.
  split.
  - intros Hsame.
    apply equalArrays_nth in Hsame as [_ Hsame].
    match goal with |- context [every ?f prev] =>
      assert (every f prev = true) as -> end; [| reflexivity].
    apply every_spec. intros k p Hk. specialize (Hsame k p Hk).
    destruct (isObjectLike p) eqn:Hp.
    + now apply sameness_to_isEqual.
    + now apply sameness_to_objectIs.
  - intros [Hcoherent Hkeys] Hdiffer.
    match goal with |- context [every ?f prev] =>
      destruct (every f prev) eqn:Hevery end; [| reflexivity].
    exfalso. rewrite every_spec in Hevery.
    enough (allStructurallyEqual numberSameValueZero prev next = true) by congruence.
    apply equalArrays_nth. split; [assumption |].
    intros k p Hk. specialize (Hevery k p Hk). simpl in Hevery.
    assert (In p prev) as Hp by (eapply nth_error_In; eauto).
    assert (In (JS.index next k) next) as Hn.
    { apply index_In. rewrite <- Hlen. apply nth_error_Some. congruence. }
    destruct (isObjectLike p) eqn:Hobj.
    + apply isEqual_to_sameness; [| | assumption].
      * eapply agreeOn_incl; [| | exact Hcoherent]; rewrite flat_map_app.
        -- apply incl_appl. now apply nodes_elem_incl.
        -- apply incl_appr. now apply nodes_elem_incl.
      * eapply keysOn_incl; [| exact Hkeys]. rewrite flat_map_app.
        apply incl_appl. now apply nodes_elem_incl.
    + now apply objectIs_to_sameness.
Qed.

Ltac in_cases :=
  repeat match goal with
         | H : _ \/ _ |- _ => destruct H
         | H : False |- _ => contradiction
         end.

Lemma snapshot_sample : snapshot ([objAB 1 2] ++ [objAB 2 3]).
Proof.
  split.
  - intros a b r Ha Hb Hra Hrb. cbn in Ha, Hb.
    in_cases; subst; cbn in *; try discriminate; congruence.
  - intros r ps Hin. cbn in Hin.
    in_cases; try discriminate.
    all: match goal with H : _ = VObject _ _ |- _ => injection H as <- <- end.
    all: cbn; repeat constructor; cbn; intuition discriminate.
Qed.

Lemma deep_strategy_structural_witness :
  shouldRun deepOptions (after (Some [objAB 1 2])) (Some [objAB 2 2]) = Ok false
  /\ shouldRun deepOptions (after (Some [objAB 1 2])) (Some [objAB 2 3]) = Ok true.
Proof.
  split.
  - apply (deep_strategy_structural deepOptions (after (Some [objAB 1 2]))
             [objAB 1 2] [objAB 2 2]); reflexivity.
  - apply (deep_strategy_structural deepOptions (after (Some [objAB 1 2]))
             [objAB 1 2] [objAB 2 3]); try reflexivity.
    exact snapshot_sample.
Defined.

(** C3 fails as stated: from [[+0]] to [[-0]] the deep strategy reports a
    change, from [[{a: +0}]] to [[{a: -0}]] it reports none, and a
    structural equality that compares numbers in one way at every depth
    gives both pairs the same verdict. *)
Lemma deep_strategy_signed_zero :
  shouldRun deepOptions (after (Some [VNumber posZero])) (Some [VNumber negZero]) = Ok true
  /\ shouldRun deepOptions (after (Some [objA 1 posZero])) (Some [objA 2 negZero]) = Ok false
  /\ (forall numEq,
         allStructurallyEqual numEq [VNumber posZero] [VNumber negZero]
         = allStructurallyEqual numEq [objA 1 posZero] [objA 2 negZero]).
Proof.
  split; [reflexivity | split; [reflexivity |]].
  intros numEq. cbn. now destruct (numEq posZero negZero).
Qed.

(* ================================================================= *)
(** ** The same values in another run *)

Lemma everyFrom_map {A B : Type} (h : A -> B) (f : B -> nat -> bool) (a : list A) (i : nat) :
  everyFrom f i (map h a) = everyFrom (fun x k => f (h x) k) i a.
Proof.
  revert i. induction a as [|x a IH]; intros i; simpl; [reflexivity |].
  now rewrite IH.
Qed.

Lemma everyFrom_ext {A : Type} (f g : A -> nat -> bool) (a : list A) (i : nat) :
  (forall x k, f x k = g x k) -> everyFrom f i a = everyFrom g i a.
Proof.
  intros H. revert i. induction a as [|x a IH]; intros i; simpl; [reflexivity |].
  now rewrite H, IH.
Qed.

Lemma filter_map_commute {A : Type} (h : A -> A) (f : A -> bool) (l : list A) :
  (forall x, f (h x) = f x) -> filter f (map h l) = map h (filter f l).
Proof.
  intros H. induction l as [|x l IH]; simpl; [reflexivity |].
  rewrite H. destruct (f x); simpl; now rewrite IH.
Qed.

Section RenamingLemmas.

Variable rho : loc -> loc.
Hypothesis rho_injective : forall a b, rho a = rho b -> a = b.

Lemma eqb_rho (a b : loc) : Pos.eqb (rho a) (rho b) = Pos.eqb a b.
Proof.
  destruct (Pos.eqb a b) eqn:Hab.
  - apply Pos.eqb_eq in Hab. subst. apply Pos.eqb_refl.
  - apply Pos.eqb_neq. intros H. apply rho_injective in H.
    apply Pos.eqb_neq in Hab. contradiction.
Qed.

Lemma sameNonNumber_rename (v w : value) :
  sameNonNumber (rename rho v) (rename rho w) = sameNonNumber v w.
Proof.
  destruct v, w; simpl; auto using eqb_rho.
Qed.

Lemma objectIs_rename (v w : value) :
  objectIs (rename rho v) (rename rho w) = objectIs v w.
Proof.
  destruct v, w; simpl; auto using eqb_rho.
Qed.

Lemma strictEquals_rename (v w : value) :
  strictEquals (rename rho v) (rename rho w) = strictEquals v w.
Proof.
  destruct v, w; simpl; auto using eqb_rho.
Qed.

Lemma isObjectLike_rename (v : value) : isObjectLike (rename rho v) = isObjectLike v.
Proof.
  now destruct v.
Qed.

Lemma getProp_rename (key : string) (props : list (string * value)) :
  getProp key (map (fun p => (fst p, rename rho (snd p))) props)
  = option_map (rename rho) (getProp key props).
Proof.
  induction props as [|[k x] props IH]; simpl; [reflexivity |].
  now destruct (String.eqb key k).
Qed.

Lemma equalArrays_rename (f : value -> value -> bool) (xs ys : list value) :
  (forall x, In x xs -> forall y, f (rename rho x) (rename rho y) = f x y) ->
  equalArrays f (map (rename rho) xs) (map (rename rho) ys) = equalArrays f xs ys.
Proof.
  revert ys. induction xs as [|x xs IH]; intros [|y ys] H; simpl; try reflexivity.
  rewrite H by (now left). rewrite IH; [reflexivity |].
  intros x' Hx'. apply H. now right.
Qed.

Lemma equalProps_rename (f : value -> value -> bool) (qs ps : list (string * value)) :
  (forall k x, In (k, x) ps -> forall y, f (rename rho x) (rename rho y) = f x y) ->
  equalProps f (map (fun p => (fst p, rename rho (snd p))) qs)
             (map (fun p => (fst p, rename rho (snd p))) ps)
  = equalProps f qs ps.
Proof.
  induction ps as [|[k x] ps IH]; intros H; simpl; [reflexivity |].
  rewrite getProp_rename.
  destruct (getProp k qs) as [y|]; simpl; [| reflexivity].
  rewrite (H k x) by (now left). rewrite IH; [reflexivity |].
  intros k' x' Hx'. apply (H k'). now right.
Qed.

Lemma isEqual_rename (v : value) :
  forall w, isEqual (rename rho v) (rename rho w) = isEqual v w.
Proof.
  induction v as [ | | b | n | s | id | z | r name source | r xs IHxs | r ps IHps]
    using JS.value_ind; intros w.
  all: try (destruct w; simpl; rewrite ?eqb_rho; reflexivity).
  - destruct w as [| | | | | | | |r' ys|]; simpl; try reflexivity.
    rewrite eqb_rho. f_equal.
    apply equalArrays_rename. intros x Hx. exact (list_all_forall _ _ IHxs x Hx).
  - destruct w as [| | | | | | | | |r' qs]; simpl; try reflexivity.
    rewrite eqb_rho, !length_map. do 2 f_equal.
    apply equalProps_rename. intros k x Hx. exact (props_all_forall _ _ IHps k x Hx).
Qed.

Lemma index_rename (a : list value) (k : nat) :
  JS.index (map (rename rho) a) k = rename rho (JS.index a k).
Proof.
  unfold JS.index. now rewrite <- (map_nth (rename rho)).
Qed.

Lemma deepCompareDeps_rename (prevDeps nextDeps : option DependencyList) :
  deepCompareDeps (option_map (map (rename rho)) prevDeps)
                  (option_map (map (rename rho)) nextDeps)
  = deepCompareDeps prevDeps nextDeps.
Proof.
  destruct prevDeps as [prev|], nextDeps as [next|]; try reflexivity.
  simpl. rewrite !deepCompareDeps_present, !length_map.
  do 2 f_equal. unfold every. rewrite everyFrom_map.
  apply everyFrom_ext. intros p k.
  now rewrite index_rename, isObjectLike_rename, isEqual_rename, objectIs_rename.
Qed.

Lemma advisoriesFrom_rename (deps : DependencyList) (i : nat) :
  advisoriesFrom i (map (rename rho) deps) = advisoriesFrom i deps.
Proof.
  revert i. induction deps as [|v deps IH]; intros i; simpl; [reflexivity |].
  rewrite IH. now destruct v.
Qed.

Lemma analyzeDeps_rename (deps : DependencyList) :
  analyzeDeps (map (rename rho) deps) = renameAnalysis rho (analyzeDeps deps).
Proof.
  rewrite !analyzeDeps_buckets. unfold renameAnalysis. simpl.
  rewrite advisoriesFrom_rename.
  rewrite !filter_map_commute; [reflexivity | | |]; intros v; now destruct v.
Qed.

End RenamingLemmas.

(** X21.  What the comparison function and the categorizer return does not
    depend on where a run placed the values: under any injective renaming
    of the references of structured values, functions and symbols,
    [deepCompareDeps] returns the same verdict on the renamed sequences,
    and [analyzeDeps] of the renamed sequence is the renamed analysis of
    the sequence, advisories unchanged. *)
Theorem comparison_and_categorizer_pure (rho : loc -> loc) :
  (forall a b, rho a = rho b -> a = b) ->
  (forall prevDeps nextDeps,
      deepCompareDeps (option_map (map (rename rho)) prevDeps)
                      (option_map (map (rename rho)) nextDeps)
      = deepCompareDeps prevDeps nextDeps)
  /\ (forall deps,
         analyzeDeps (map (rename rho) deps) = renameAnalysis rho (analyzeDeps deps)).
Proof.
  intros Hinj. split.
  - now apply deepCompareDeps_rename.
  - now apply analyzeDeps_rename.
Qed.

Lemma comparison_and_categorizer_pure_witness :
  deepCompareDeps (Some (map (rename Pos.succ) [objAB 1 2; namedFn]))
                  (Some (map (rename Pos.succ) [objAB 7 2; namedFn]))
  = deepCompareDeps (Some [objAB 1 2; namedFn]) (Some [objAB 7 2; namedFn])
  /\ analyzeDeps (map (rename Pos.succ) [objAB 1 2; namedFn; VSymbol 5])
     = renameAnalysis Pos.succ (analyzeDeps [objAB 1 2; namedFn; VSymbol 5]).
Proof.
  destruct (comparison_and_categorizer_pure Pos.succ Pos.succ_inj) as [Hcompare Hanalyze].
  split.
  - exact (Hcompare (Some [objAB 1 2; namedFn]) (Some [objAB 7 2; namedFn])).
  - apply Hanalyze.
Defined.

(* ================================================================= *)
(** ** The refs a component can reach *)

(** After any number of renders either nothing was rendered or the
    first-render flag is cleared: a kept previous sequence is never seen
    by a first render. *)
Lemma renders_refs (history : list (UseSmartEffectOptions * option DependencyList)) :
  forall refs refs',
    renders history refs = Ok refs' ->
    (history = [] /\ refs' = refs) \/ isFirstRender refs' = false.
Proof.
  induction history as [|[options deps] history IH]; intros refs refs' H; simpl in H.
  - left. split; congruence.
  - right. unfold render in H.
    destruct (shouldRun options refs deps) as [run|e]; simpl in H; [| discriminate].
    destruct (IH _ _ H) as [[_ ->] | Hflag]; auto.
Qed.

(* ================================================================= *)
(** ** The report store as a map *)

Lemma get_set_same (key : string) (report : EffectReport) (m : ReportMap) :
  get key (set key report m) = Some report.
Proof.
  induction m as [|[k r] m IH]; simpl.
  - now rewrite String.eqb_refl.
  - destruct (String.eqb k key) eqn:Hk; simpl; now rewrite Hk.
Qed.

Lemma get_set_other (key other : string) (report : EffectReport) (m : ReportMap) :
  other <> key -> get other (set key report m) = get other m.
Proof.
  intros Hother. induction m as [|[k r] m IH]; simpl.
  - apply String.eqb_neq in Hother. rewrite String.eqb_sym. now rewrite Hother.
  - destruct (String.eqb k key) eqn:Hk; simpl.
    + apply String.eqb_eq in Hk. subst k.
      apply String.eqb_neq in Hother. rewrite String.eqb_sym. now rewrite Hother.
    + now rewrite IH.
Qed.

Lemma get_delete_other (key other : string) (m : ReportMap) :
  other <> key -> get other (delete key m) = get other m.
Proof.
  intros Hother. induction m as [|[k r] m IH]; simpl; [reflexivity |].
  destruct (String.eqb k key) eqn:Hk; simpl.
  - apply String.eqb_eq in Hk. subst k.
    apply String.eqb_neq in Hother. rewrite String.eqb_sym. now rewrite Hother.
  - now rewrite IH.
Qed.

Lemma set_absent (key : string) (report : EffectReport) (m : ReportMap) :
  get key m = None -> set key report m = m ++ [(key, report)].
Proof.
  induction m as [|[k r] m IH]; simpl; [reflexivity |].
  destruct (String.eqb k key); [discriminate |].
  intros H. now rewrite IH.
Qed.

Lemma set_present (key : string) (report old : EffectReport) (m : ReportMap) :
  get key m = Some old -> map fst (set key report m) = map fst m.
Proof.
  induction m as [|[k r] m IH]; simpl; [discriminate |].
  destruct (String.eqb k key); simpl; [reflexivity |].
  intros H. now rewrite IH.
Qed.

Lemma get_None_keys (key : string) (m : ReportMap) :
  get key m = None <-> ~ In key (map fst m).
Proof.
  induction m as [|[k r] m IH]; simpl.
  - split; auto.
  - destruct (String.eqb k key) eqn:Hk.
    + apply String.eqb_eq in Hk. split; [discriminate | intros H; exfalso; auto].
    + apply String.eqb_neq in Hk. rewrite IH. split; [intros H [?|?]; auto | auto].
Qed.

Lemma firstKey_set (key : string) (report : EffectReport) (m : ReportMap) :
  firstKey (set key report m)
  = match firstKey m with Some k => Some k | None => Some key end.
Proof.
  destruct m as [|[k r] m]; simpl; [reflexivity |].
  now destruct (String.eqb k key).
Qed.

Lemma get_limitReports_other (other : string) (m : ReportMap) :
  firstKey m <> Some other -> get other (limitReports m) = get other m.
Proof.
  intros Hfirst. unfold limitReports.
  destruct (maxReports <? size m)%nat; [| reflexivity].
  destruct m as [|[k r] m]; simpl in *; [reflexivity |].
  destruct (truthyString k); [| reflexivity].
  rewrite String.eqb_refl.
  destruct (String.eqb k other) eqn:Hk; [| reflexivity].
  apply String.eqb_eq in Hk. congruence.
Qed.

Lemma set_size_present (key : string) (report old : EffectReport) (m : ReportMap) :
  get key m = Some old -> size (set key report m) = size m.
Proof.
  intros H. unfold size. rewrite <- !(length_map fst).
  now rewrite (set_present _ _ old).
Qed.

Lemma firstKey_get (key : string) (m : ReportMap) :
  firstKey m = Some key -> exists report, get key m = Some report.
Proof.
  destruct m as [|[k r] m]; simpl; [discriminate |].
  intros [= ->]. rewrite String.eqb_refl. eauto.
Qed.

Lemma get_after_limit (report : EffectReport) (m : ReportMap) :
  size m <= maxReports ->
  get (DevTools.id report) (limitReports (set (DevTools.id report) report m)) = Some report.
Proof.
  intros Hsize.
  destruct (get (DevTools.id report) m) as [old|] eqn:Hold.
  - unfold limitReports.
    rewrite (set_size_present _ _ old) by assumption.
    apply Nat.leb_le in Hsize. rewrite Nat.ltb_antisym, Hsize. simpl.
    apply get_set_same.
  - destruct m as [|[k0 r0] rest].
    + simpl. now rewrite String.eqb_refl.
    + rewrite get_limitReports_other; [apply get_set_same |].
      rewrite firstKey_set. simpl. intros [= ->].
      simpl in Hold. now rewrite String.eqb_refl in Hold.
Qed.

(** X2.  A report can be read back: with reporting on and a store of at
    most 1000 reports, the report handed to [reportToDevTools] is what a
    lookup under its identifier finds afterwards (also when the call ends
    in a TypeError after storing). *)
Theorem report_then_lookup (global : DevToolsGlobal) (report : EffectReport)
        (st : DevToolsState) :
  isEnabled st = true ->
  size (effects st) <= maxReports ->
  get (DevTools.id report) (effects (fst (reportToDevTools global report st)))
  = Some report.
Proof.
  intros Henabled Hsize. unfold reportToDevTools. rewrite Henabled. simpl.
  destruct global as [|[|]]; simpl; auto using get_set_same, get_after_limit.
Qed.

Lemma report_then_lookup_witness :
  get "fetch-user"
      (effects (fst (reportToDevTools NoGlobal (sampleReport "fetch-user") enabledEmpty)))
  = Some (sampleReport "fetch-user").
Proof.
  apply (report_then_lookup NoGlobal (sampleReport "fetch-user") enabledEmpty).
  - reflexivity.
  - unfold maxReports. simpl. lia.
Defined.

(** X3.  Storing a report leaves the report of every other identifier as it
    was, except for the one identifier that is first in the store, which
    may be the one evicted. *)
Theorem report_keeps_others (global : DevToolsGlobal) (report : EffectReport)
        (st : DevToolsState) (other : string) :
  other <> DevTools.id report ->
  firstKey (effects st) <> Some other ->
  get other (effects (fst (reportToDevTools global report st)))
  = get other (effects st).
Proof.
  intros Hother Hfirst. unfold reportToDevTools.
  destruct (isEnabled st); simpl; [| reflexivity].
  assert (get other (limitReports (set (DevTools.id report) report (effects st)))
          = get other (effects st)) as Hlimit.
  { rewrite get_limitReports_other; [now apply get_set_other |].
    rewrite firstKey_set.
    destruct (firstKey (effects st)); congruence. }
  destruct global as [|[|]]; simpl; auto using get_set_other.
Qed.

Lemma report_keeps_others_witness :
  get "b" (effects (fst (reportToDevTools NoGlobal (sampleReport "c")
                           (mkState [("a", sampleReport "a"); ("b", sampleReport "b")] true))))
  = Some (sampleReport "b").
Proof.
  apply (report_keeps_others NoGlobal (sampleReport "c")
           (mkState [("a", sampleReport "a"); ("b", sampleReport "b")] true) "b");
    simpl; discriminate.
Defined.

(** X4.  A full store is a queue: with reporting on and 1000 reports stored,
    the first of them under a non-empty identifier, a report under a new
    identifier goes last and the first one is dropped; the others keep
    their order. *)
Theorem full_store_evicts_first (global : DevToolsGlobal) (report oldest : EffectReport)
        (st : DevToolsState) (key : string) (rest : ReportMap) :
  isEnabled st = true ->
  global <> panelGlobal ->
  effects st = (key, oldest) :: rest ->
  key <> "" ->
  size (effects st) = maxReports ->
  get (DevTools.id report) (effects st) = None ->
  effects (fst (reportToDevTools global report st))
  = rest ++ [(DevTools.id report, report)].
Proof.
  intros Henabled Hglobal Hstore Hkey Hsize Hnew.
  unfold reportToDevTools. rewrite Henabled. simpl.
  assert (limitReports (set (DevTools.id report) report (effects st))
          = rest ++ [(DevTools.id report, report)]) as Hlimit.
  { rewrite (set_absent _ _ _ Hnew), Hstore. simpl.
    apply limitReports_evicts_oldest; [assumption |].
    rewrite Hstore in Hsize. unfold size in *. simpl in *.
    rewrite length_app. simpl. lia. }
  destruct global as [|[|]]; simpl; auto.
  now contradiction Hglobal.
Qed.


Lemma set_keys (key : string) (report : EffectReport) (m : ReportMap) :
  map fst (set key report m)
  = match get key m with Some _ => map fst m | None => map fst m ++ [key] end.
Proof.
  destruct (get key m) as [old|] eqn:H.
  - now apply (set_present _ _ old).
  - rewrite (set_absent _ _ _ H), map_app. reflexivity.
Qed.

Lemma set_filedById (report : EffectReport) (m : ReportMap) :
  filedById m -> filedById (set (DevTools.id report) report m).
Proof.
  intros [Hnodup Hfiled]. split.
  - rewrite set_keys.
    destruct (get (DevTools.id report) m) eqn:H; [assumption |].
    apply get_None_keys in H.
    apply NoDup_app; [assumption | repeat constructor; auto | ].
    intros k Hk [<- | []]. contradiction.
  - clear Hnodup. induction m as [|[k r] m IH]; simpl.
    + now repeat constructor.
    + inversion Hfiled; subst.
      destruct (String.eqb k (DevTools.id report)) eqn:Hk.
      * apply String.eqb_eq in Hk. constructor; auto.
      * constructor; auto.
Qed.

Lemma limitReports_filedById (m : ReportMap) :
  filedById m -> filedById (limitReports m).
Proof.
  intros [Hnodup Hfiled]. unfold limitReports.
  destruct (maxReports <? size m)%nat; [| now split].
  destruct m as [|[k r] m]; simpl; [now split |].
  destruct (truthyString k); [| now split].
  rewrite String.eqb_refl.
  inversion Hnodup; inversion Hfiled; subst. now split.
Qed.

Lemma full_store_evicts_first_witness :
  effects (fst (reportToDevTools NoGlobal (sampleReport "newest") fullStore))
  = tl (effects fullStore) ++ [("newest", sampleReport "newest")].
Proof.
  apply (full_store_evicts_first NoGlobal (sampleReport "newest") (sampleReport "effect_0")
           fullStore "effect_0").
  - reflexivity.
  - discriminate.
  - vm_compute; reflexivity.
  - discriminate.
  - vm_compute; reflexivity.
  - vm_compute; reflexivity.
Defined.

(** X5.  [reportToDevTools] keeps the store filed: if every entry holds a
    report under that report's own identifier and no identifier occurs
    twice, the same is true after the call. *)
Theorem report_keeps_filing (global : DevToolsGlobal) (report : EffectReport)
        (st : DevToolsState) :
  filedById (effects st) ->
  filedById (effects (fst (reportToDevTools global report st))).
Proof.
  intros Hfiled. unfold reportToDevTools.
  destruct (isEnabled st); simpl; [| assumption].
  destruct global as [|[|]]; simpl;
    auto using set_filedById, limitReports_filedById.
Qed.

Lemma report_keeps_filing_witness :
  filedById (effects (fst (reportToDevTools NoGlobal (sampleReport "a") enabledEmpty))).
Proof.
  apply (report_keeps_filing NoGlobal (sampleReport "a") enabledEmpty).
  split; constructor.
Defined.

(** X6.  Reporting again under an identifier the store already has
    replaces that report where it stands: with reporting on and at most
    1000 reports stored, afterwards the identifiers of the store and
    their order are unchanged, a lookup under the identifier finds the
    new report, and the report under every other identifier is the one
    that was there. *)
Theorem report_again_in_place (global : DevToolsGlobal) (report old : EffectReport)
        (st : DevToolsState) :
  isEnabled st = true ->
  size (effects st) <= maxReports ->
  get (DevTools.id report) (effects st) = Some old ->
  map fst (effects (fst (reportToDevTools global report st))) = map fst (effects st)
  /\ get (DevTools.id report) (effects (fst (reportToDevTools global report st)))
     = Some report
  /\ forall other,
      other <> DevTools.id report ->
      get other (effects (fst (reportToDevTools global report st)))
      = get other (effects st).
Proof.
  intros Henabled Hsize Hold.
  assert (effects (fst (reportToDevTools global report st))
          = set (DevTools.id report) report (effects st)) as ->.
  { unfold reportToDevTools. rewrite Henabled. simpl.
    assert (limitReports (set (DevTools.id report) report (effects st))
            = set (DevTools.id report) report (effects st)) as Hlimit.
    { unfold limitReports. rewrite (set_size_present _ _ old) by assumption.
      apply Nat.leb_le in Hsize. now rewrite Nat.ltb_antisym, Hsize. }
    destruct global as [|[|]]; simpl; now rewrite ?Hlimit. }
  split; [now apply (set_present _ _ old) |].
  split; [apply get_set_same |].
  intros other Hother. now apply get_set_other.
Qed.

Lemma report_again_in_place_witness :
  let st := mkState [("a", sampleReport "a"); ("b", sampleReport "b")] true in
  let st' := fst (reportToDevTools NoGlobal skippedReport st) in
  map fst (effects st') = ["a"; "b"]
  /\ get "a" (effects st') = Some skippedReport
  /\ get "b" (effects st') = Some (sampleReport "b").
Proof.
  cbv zeta.
  destruct (report_again_in_place NoGlobal skippedReport (sampleReport "a")
              (mkState [("a", sampleReport "a"); ("b", sampleReport "b")] true))
    as (Hkeys & Hnew & Hothers).
  - reflexivity.
  - unfold maxReports. simpl. lia.
  - reflexivity.
  - split; [exact Hkeys | split; [exact Hnew |]].
    rewrite (Hothers "b"); [reflexivity | discriminate].
Defined.

(* ================================================================= *)
(** ** Identity, decision and report *)

Lemma SFeqb_eq (x y : number) : SFeqb x y = true -> isNaN x = false /\ (x = y \/ exists s s', x = S754_zero s /\ y = S754_zero s').
Proof.
  unfold SFeqb, SFcompare.
  destruct x as [s|s| |s m e], y as [s'|s'| |s' m' e']; simpl; try discriminate;
    try (destruct s; discriminate); try (destruct s'; discriminate).
  - intros _. split; [reflexivity | right; eauto].
  - destruct s, s'; try discriminate; auto.
  - destruct s, s'; try discriminate.
    + destruct (Z.compare e e') eqn:He; try discriminate.
      apply Z.compare_eq in He. subst e'.
      destruct (Pos.compare_cont Eq m m') eqn:Hm; try discriminate.
      apply Pos.compare_eq in Hm. subst. auto.
    + destruct (Z.compare e e') eqn:He; try discriminate.
      apply Z.compare_eq in He. subst e'.
      destruct (Pos.compare_cont Eq m m') eqn:Hm; try discriminate.
      apply Pos.compare_eq in Hm. subst. auto.
Qed.

Lemma numberSameValue_eq (x y : number) : numberSameValue x y = true -> x = y.
Proof.
  destruct x as [s|s| |s m e], y as [s'|s'| |s' m' e']; simpl; try discriminate; auto;
    intros H.
  1: apply Bool.eqb_prop in H; now subst.
  all: destruct (SFeqb_eq _ _ H) as [_ [Heq | (a & b & Ha & Hb)]]; congruence.
Qed.

Lemma objectIs_identical (p n : value) : objectIs n p = true -> identical p n.
Proof.
  destruct p, n; simpl; intros H; try discriminate; auto.
  - apply Bool.eqb_prop in H. now subst.
  - apply numberSameValue_eq in H. now subst.
  - apply String.eqb_eq in H. now subst.
  - apply Pos.eqb_eq in H. now subst.
  - apply Z.eqb_eq in H. now subst.
  - apply Pos.eqb_eq in H. now subst.
  - apply Pos.eqb_eq in H. now subst.
  - apply Pos.eqb_eq in H. now subst.
Qed.

Lemma objectIs_sym (v w : value) : objectIs v w = true -> objectIs w v = true.
Proof.
  intros H. apply identical_objectIs.
  apply objectIs_identical in H.
  destruct v, w; simpl in *; try contradiction; try discriminate; congruence.
Qed.

Lemma objectIs_isEqual (v w : value) : objectIs v w = true -> isEqual v w = true.
Proof.
  destruct v, w; simpl; intros H; try discriminate; rewrite ?H; auto.
  apply numberSameValue_cases in H.
  destruct H as [-> | [-> ->]]; auto using orb_true_r.
Qed.

Lemma Forall2_of_nth {A B : Type} (R : A -> B -> Prop) (l : list A) (l' : list B) :
  List.length l = List.length l' ->
  (forall k x y, nth_error l k = Some x -> nth_error l' k = Some y -> R x y) ->
  Forall2 R l l'.
Proof.
  revert l'. induction l as [|x l IH]; intros [|y l'] Hlen H; simpl in *; try discriminate.
  - constructor.
  - constructor.
    + exact (H 0 x y eq_refl eq_refl).
    + apply IH; [lia |]. intros k. exact (H (S k)).
Qed.

(** X7.  After the first render the identity strategy reports no change
    exactly when the two sequences have the same length and are pairwise
    identical (same reference for structured values, functions and
    symbols, same primitive value otherwise). *)
Theorem identity_unchanged_iff
        (options : UseSmartEffectOptions) (refs : HookRefs)
        (prev next : DependencyList) :
  isFirstRender refs = false ->
  strategyOf options = Identity ->
  prevDepsRef refs = Some prev ->
  (shouldRun options refs (Some next) = Ok false
   <-> List.length prev = List.length next /\ Forall2 identical prev next).
Proof.
  intros Hfirst Hstrategy Hprev.
  destruct (strategyOf_identity _ Hstrategy) as [Hcmp Hdeep].
  rewrite (shouldRun_identity _ _ prev) by assumption.
  split.
  - intros H. injection H as H.
    apply orb_false_iff in H as [Hlen Hevery].
    apply negb_false_iff in Hlen, Hevery.
    apply Nat.eqb_eq in Hlen. split; [assumption |].
    rewrite every_spec in Hevery.
    apply Forall2_of_nth; [assumption |].
    intros k p n Hp Hn. apply objectIs_identical.
    rewrite <- (index_nth_error _ _ _ Hp). now apply Hevery.
  - intros [Hlen Hsame]. rewrite Hlen, Nat.eqb_refl. simpl.
    assert (every (fun dep index => objectIs dep (JS.index prev index)) next = true) as ->;
      [| reflexivity].
    apply every_spec. intros k x Hk.
    destruct (Forall2_nth_error_r _ _ _ Hsame k x Hk) as (p & Hp & Hpx).
    rewrite (index_nth_error _ _ _ Hp). now apply identical_objectIs.
Qed.

Lemma identity_unchanged_iff_witness :
  shouldRun defaultOptions (after (Some [num 1; objAB 1 2])) (Some [num 1; objAB 2 2])
  = Ok false
  <-> List.length [num 1; objAB 1 2] = List.length [num 1; objAB 2 2]
      /\ Forall2 identical [num 1; objAB 1 2] [num 1; objAB 2 2].
Proof.
  apply (identity_unchanged_iff defaultOptions (after (Some [num 1; objAB 1 2]))
           [num 1; objAB 1 2] [num 1; objAB 2 2]); reflexivity.
Defined.

Lemma shouldRun_options_ext (options options' : UseSmartEffectOptions) (refs : HookRefs)
      (deps : option DependencyList) :
  skipFirstRender options = skipFirstRender options' ->
  deepCompare options = deepCompare options' ->
  compareFunction options = compareFunction options' ->
  shouldRun options refs deps = shouldRun options' refs deps.
Proof.
  intros Hskip Hdeep Hcmp. unfold shouldRun. now rewrite Hskip, Hdeep, Hcmp.
Qed.

(** X8.  Without a custom predicate, whenever [useSmartEffect] decides not to
    run, [useDeepEffect] with the same options, refs and dependencies
    decides not to run either: deep comparison never adds a run. *)
Theorem deep_never_adds_runs
        (options : UseSmartEffectOptions) (refs : HookRefs) (deps : option DependencyList) :
  compareFunction options = None ->
  shouldRun options refs deps = Ok false ->
  shouldRun (SmartEffect.useDeepEffect options) refs deps = Ok false.
Proof.
  intros Hcmp Hrun.
  destruct (deepCompare options) eqn:Hdeep.
  { rewrite <- Hrun. apply shouldRun_options_ext; simpl; auto. }
  destruct (isFirstRender refs) eqn:Hfirst.
  { rewrite <- Hrun. unfold shouldRun. now rewrite Hfirst. }
  destruct deps as [next|].
  2: { unfold shouldRun in Hrun. rewrite Hfirst in Hrun. discriminate. }
  destruct (prevDepsRef refs) as [prev|] eqn:Hprev.
  2: { unfold shouldRun in Hrun. rewrite Hfirst, Hcmp, Hdeep, Hprev in Hrun. discriminate. }
  rewrite (shouldRun_identity _ _ prev) in Hrun by assumption.
  injection Hrun as Hrun.
  apply orb_false_iff in Hrun as [Hlen Hevery].
  apply negb_false_iff in Hlen, Hevery.
  rewrite shouldRun_deep by (simpl; auto).
  rewrite Hprev, deepCompareDeps_present, Hlen. simpl.
  match goal with |- context [every ?f prev] =>
    assert (every f prev = true) as -> end; [| reflexivity].
  rewrite every_spec in Hevery. apply every_spec.
  intros k p Hp.
  assert (exists n, nth_error next k = Some n) as [n Hn].
  { apply Nat.eqb_eq in Hlen.
    destruct (nth_error next k) eqn:Hk; [eauto |].
    apply nth_error_None in Hk.
    assert (k < List.length prev) by (apply nth_error_Some; congruence). lia. }
  specialize (Hevery k n Hn). rewrite (index_nth_error _ _ _ Hp) in Hevery.
  rewrite (index_nth_error _ _ _ Hn).
  apply objectIs_sym in Hevery.
  destruct (isObjectLike p); [now apply objectIs_isEqual | assumption].
Qed.

Lemma deep_never_adds_runs_witness :
  shouldRun (SmartEffect.useDeepEffect defaultOptions)
            (after (Some [num 1; objAB 1 2])) (Some [num 1; objAB 1 2]) = Ok false.
Proof.
  apply (deep_never_adds_runs defaultOptions (after (Some [num 1; objAB 1 2]))
           (Some [num 1; objAB 1 2])); reflexivity.
Defined.





(* ================================================================= *)
(** ** The hook and the report store *)

Lemma createEffectId_nonempty (now : N) (randomDigits : string) :
  Reporting.createEffectId now randomDigits <> "".
Proof.
  discriminate.
Qed.

Lemma resolveEffectId_nonempty (options : UseSmartEffectOptions)
      (inputs : SmartEffect.RenderInputs) (kept : option string) :
  kept <> Some "" -> SmartEffect.resolveEffectId options inputs kept <> "".
Proof.
  intros Hkept. unfold SmartEffect.resolveEffectId.
  destruct kept as [effectId|]; [congruence |].
  destruct (effectId options) as [given|]; [| apply createEffectId_nonempty].
  destruct given; simpl; [apply createEffectId_nonempty | discriminate].
Qed.

Lemma store_within_cap_step (global : DevToolsGlobal) (report : EffectReport)
      (st : DevToolsState) :
  global <> panelGlobal ->
  DevTools.id report <> "" ->
  keysNonEmpty (effects st) ->
  size (effects st) <= maxReports ->
  size (effects (fst (reportToDevTools global report st))) <= maxReports
  /\ keysNonEmpty (effects (fst (reportToDevTools global report st))).
Proof.
  intros Hglobal Hid Hkeys Hsize. unfold reportToDevTools.
  destruct (isEnabled st); simpl; [| auto].
  assert (size (limitReports (set (DevTools.id report) report (effects st))) <= maxReports
          /\ keysNonEmpty (limitReports (set (DevTools.id report) report (effects st)))) as Hlimit.
  { apply limitReports_cap.
    - now apply set_keysNonEmpty.
    - pose proof (set_size (DevTools.id report) report (effects st)). lia. }
  destruct global as [|[|]]; simpl; auto.
  now contradiction Hglobal.
Qed.

Lemma reportToDevTools_returns (global : DevToolsGlobal) (report : EffectReport)
      (st : DevToolsState) :
  global <> panelGlobal -> snd (reportToDevTools global report st) = Ok tt.
Proof.
  intros Hglobal. unfold reportToDevTools. destruct (isEnabled st); [| reflexivity].
  destruct global as [|[|]]; try reflexivity.
  now contradiction Hglobal.
Qed.

(** X10.  A render of the hook keeps the store within its cap: unless the
    DevTools global lacks [postMessage], the render returns, its report is
    filed under a non-empty identifier (the one given, or a generated
    one), and a store of at most 1000 reports under non-empty identifiers
    is left as such a store. *)
Theorem hook_keeps_store_within_cap
        (options : UseSmartEffectOptions) (deps : option DependencyList)
        (inputs : SmartEffect.RenderInputs) (hook : SmartEffect.HookInstance)
        (store : DevToolsState) :
  SmartEffect.devToolsGlobal inputs <> panelGlobal ->
  SmartEffect.effectIdRef hook <> Some "" ->
  keysNonEmpty (effects store) ->
  size (effects store) <= maxReports ->
  let outcome := SmartEffect.useSmartEffect options deps inputs hook store in
  size (effects (snd outcome)) <= maxReports
  /\ keysNonEmpty (effects (snd outcome))
  /\ exists run hook',
      fst outcome = Ok (run, hook') /\ SmartEffect.effectIdRef hook' <> Some "".
Proof.
  intros Hglobal Hkept Hkeys Hsize. cbv zeta. unfold SmartEffect.useSmartEffect.
  pose proof (resolveEffectId_nonempty options inputs _ Hkept) as Hid.
  destruct (shouldRun_returns options (SmartEffect.hookRefs hook) deps) as [run ->].
  set (report := SmartEffect.makeReport _ run _ deps inputs).
  pose proof (store_within_cap_step (SmartEffect.devToolsGlobal inputs) report store
                Hglobal Hid Hkeys Hsize) as [Hcap Hnonempty].
  pose proof (reportToDevTools_returns _ report store Hglobal) as Hok.
  destruct (reportToDevTools (SmartEffect.devToolsGlobal inputs) report store)
    as [store' [[]|e]]; simpl in *; [| discriminate].
  split; [assumption | split; [assumption |]].
  eexists _, _. split; [reflexivity |]. simpl. congruence.
Qed.

Lemma hook_keeps_store_within_cap_witness :
  size (effects (snd (SmartEffect.useSmartEffect defaultOptions (Some [num 1]) sampleInputs
                        SmartEffect.unmounted enabledEmpty))) <= maxReports.
Proof.
  apply (hook_keeps_store_within_cap defaultOptions (Some [num 1]) sampleInputs
           SmartEffect.unmounted enabledEmpty).
  - discriminate.
  - discriminate.
  - constructor.
  - unfold maxReports. simpl. lia.
Defined.

(** X11.  With reporting on and a store of at most 1000 reports, after a
    render of the hook the store holds, under the effect's identifier, a
    report whose [triggered] is the decision of that render, whose
    [current] is the dependencies given and whose [previous] is the
    sequence kept from the render before. *)
Theorem hook_report_is_stored
        (options : UseSmartEffectOptions) (deps : option DependencyList)
        (inputs : SmartEffect.RenderInputs) (hook : SmartEffect.HookInstance)
        (store : DevToolsState) :
  isEnabled store = true ->
  size (effects store) <= maxReports ->
  exists run report,
    shouldRun options (SmartEffect.hookRefs hook) deps = Ok run
    /\ get (SmartEffect.resolveEffectId options inputs (SmartEffect.effectIdRef hook))
           (effects (snd (SmartEffect.useSmartEffect options deps inputs hook store)))
       = Some report
    /\ triggered report = run
    /\ DevTools.current (dependencies report) = orEmpty deps
    /\ DevTools.previous (dependencies report)
       = orEmpty (prevDepsRef (SmartEffect.hookRefs hook)).
Proof.
  intros Henabled Hsize. unfold SmartEffect.useSmartEffect.
  destruct (shouldRun_returns options (SmartEffect.hookRefs hook) deps) as [run Hrun].
  rewrite Hrun.
  set (effectId := SmartEffect.resolveEffectId options inputs (SmartEffect.effectIdRef hook)).
  set (report := SmartEffect.makeReport effectId run _ deps inputs).
  exists run, report. split; [reflexivity |].
  split; [| repeat split].
  assert (get effectId (effects (fst (reportToDevTools (SmartEffect.devToolsGlobal inputs)
                                        report store))) = Some report) as Hget.
  { pose proof (get_after_limit report (effects store) Hsize) as Hlimit.
    pose proof (get_set_same (DevTools.id report) report (effects store)) as Hset.
    unfold reportToDevTools. rewrite Henabled.
    destruct (SmartEffect.devToolsGlobal inputs) as [|[|]]; assumption. }
  destruct (reportToDevTools (SmartEffect.devToolsGlobal inputs) report store)
    as [store' [[]|e]]; simpl in *; assumption.
Qed.

Lemma hook_report_is_stored_witness :
  exists run report,
    shouldRun namedOptions
              initialRefs (Some [num 1]) = Ok run
    /\ get "fetch-user"
           (effects (snd (SmartEffect.useSmartEffect
                            namedOptions
                            (Some [num 1]) sampleInputs SmartEffect.unmounted enabledEmpty)))
       = Some report
    /\ triggered report = run
    /\ DevTools.current (dependencies report) = [num 1]
    /\ DevTools.previous (dependencies report) = [].
Proof.
  apply (hook_report_is_stored namedOptions
           (Some [num 1]) sampleInputs SmartEffect.unmounted enabledEmpty).
  - reflexivity.
  - unfold maxReports. simpl. lia.
Defined.

(* ================================================================= *)
(** ** Warnings and the change log *)







Lemma In_mapFrom {A B : Type} (g : A -> nat -> B) (a : list A) (i : nat) (y : B) :
  In y (Reporting.mapFrom g i a)
  <-> exists k x, nth_error a k = Some x /\ y = g x (i + k).
Proof.
  revert i. induction a as [|z a IH]; intros i; simpl.
  - split; [contradiction | intros ([|k] & x & Hk & _); discriminate].
  - rewrite IH. split.
    + intros [<- | (k & x & Hk & ->)].
      * exists 0, z. now rewrite Nat.add_0_r.
      * exists (S k), x. now rewrite Nat.add_succ_r.
    + intros ([|k] & x & Hk & ->); simpl in Hk.
      * injection Hk as <-. left. now rewrite Nat.add_0_r.
      * right. exists k, x. now rewrite Nat.add_succ_r.
Qed.

Lemma filter_nil_iff {A : Type} (f : A -> bool) (l : list A) :
  filter f l = [] <-> forall x, In x l -> f x = false.
Proof.
  induction l as [|x l IH]; simpl.
  - split; [intros _ x [] | reflexivity].
  - destruct (f x) eqn:Hx.
    + split; [discriminate | intros H; specialize (H x (or_introl eq_refl)); congruence].
    + rewrite IH. split; [intros H y [<- | Hy]; auto | auto].
Qed.

Lemma change_flag (p n : value) :
  negb (objectIs p n) && negb (isEqual p n) = negb (isEqual p n).
Proof.
  destruct (objectIs p n) eqn:H; [| reflexivity].
  now rewrite (objectIs_isEqual _ _ H).
Qed.

Lemma mapFrom_filter_sorted {A : Type} (g : A -> nat -> Reporting.DependencyChange)
      (f : Reporting.DependencyChange -> bool) (a : list A) :
  (forall x k, Reporting.index (g x k) = k) ->
  forall i,
    StronglySorted lt (map Reporting.index (filter f (Reporting.mapFrom g i a)))
    /\ Forall (fun k => i <= k) (map Reporting.index (filter f (Reporting.mapFrom g i a))).
Proof.
  intros Hindex. induction a as [|x a IH]; intros i; simpl.
  - split; constructor.
  - destruct (IH (S i)) as [Hsorted Hbound].
    assert (Forall (fun k => i < k)
                   (map Reporting.index (filter f (Reporting.mapFrom g (S i) a)))) as Hlt.
    { eapply Forall_impl; [| exact Hbound]. simpl. intros k Hk. lia. }
    destruct (f (g x i)); simpl.
    + rewrite Hindex. split.
      * constructor; assumption.
      * constructor; [lia |]. eapply Forall_impl; [| exact Hlt]. simpl. intros; lia.
    + split; [assumption |]. eapply Forall_impl; [| exact Hlt]. simpl. intros; lia.
Qed.

(** X13.  The changes of [logDependencyChanges] are, in increasing order,
    the indexes of the next sequence at which lodash [isEqual] finds the
    previous and the next value different (the [Object.is] test adds
    nothing), each with the two values; for present sequences it prints
    nothing when there is no change, and otherwise the group opening
    "<prefix> Dependencies Changed", then for each change in that order
    the line "Index i:" with the two values, then the group end. *)
Theorem change_log_lists_unequal (prevDeps nextDeps : DependencyList)
        (effectId : option string) :
  (forall c,
      In c (Reporting.dependencyChanges prevDeps nextDeps)
      <-> exists n,
        nth_error nextDeps (Reporting.index c) = Some n
        /\ isEqual (JS.index prevDeps (Reporting.index c)) n = false
        /\ c = Reporting.mkChange (Reporting.index c)
                                  (JS.index prevDeps (Reporting.index c)) n true)
  /\ StronglySorted lt (map Reporting.index (Reporting.dependencyChanges prevDeps nextDeps))
  /\ Reporting.logDependencyChanges (Some prevDeps) (Some nextDeps) effectId
     = match Reporting.dependencyChanges prevDeps nextDeps with
       | [] => []
       | changes =>
           Reporting.ConsoleGroup
             (Reporting.effectPrefix effectId ++ " Dependencies Changed")
           :: map (fun c =>
                     Reporting.ConsoleLog
                       ("Index " ++ indexToString (Reporting.index c) ++ ":")
                       [Reporting.prev c; Reporting.next c])
                  changes
           ++ [Reporting.ConsoleGroupEnd]
       end.
Proof.
  split; [| split].
  - intros c. unfold Reporting.dependencyChanges, Reporting.mapIndexed.
    rewrite filter_In, In_mapFrom. split.
    + intros [(k & n & Hk & ->) Hflag]. simpl in *.
      rewrite change_flag in Hflag. apply negb_true_iff in Hflag.
      exists n. rewrite change_flag, Hflag. auto.
    + intros (n & Hn & Hdiff & Hc). rewrite Hc. simpl. split.
      * exists (Reporting.index c), n. split; [assumption |].
        simpl. now rewrite change_flag, Hdiff.
      * reflexivity.
  - unfold Reporting.dependencyChanges, Reporting.mapIndexed.
    apply mapFrom_filter_sorted. reflexivity.
  - unfold Reporting.logDependencyChanges.
    destruct (Reporting.dependencyChanges prevDeps nextDeps) as [|c changes]; reflexivity.
Qed.

(** X14.  When [deepCompareDeps] finds two sequences unchanged,
    [logDependencyChanges] prints nothing for them. *)
Theorem unchanged_deps_log_nothing (prevDeps nextDeps : option DependencyList)
        (effectId : option string) :
  deepCompareDeps prevDeps nextDeps = Ok true ->
  Reporting.logDependencyChanges prevDeps nextDeps effectId = [].
Proof.
  destruct prevDeps as [prev|], nextDeps as [next|]; try reflexivity.
  rewrite deepCompareDeps_present. intros [= H].
  apply andb_true_iff in H as [Hlen Hevery]. apply Nat.eqb_eq in Hlen.
  rewrite every_spec in Hevery.
  unfold Reporting.logDependencyChanges.
  assert (Reporting.dependencyChanges prev next = []) as ->; [| reflexivity].
  unfold Reporting.dependencyChanges, Reporting.mapIndexed.
  apply filter_nil_iff. intros c Hc.
  apply In_mapFrom in Hc as (k & n & Hn & ->). simpl.
  rewrite change_flag. apply negb_false_iff.
  assert (exists p, nth_error prev k = Some p) as [p Hp].
  { destruct (nth_error prev k) eqn:Hk; [eauto |].
    apply nth_error_None in Hk.
    assert (k < List.length next) by (apply nth_error_Some; congruence). lia. }
  specialize (Hevery k p Hp). simpl in Hevery.
  rewrite (index_nth_error _ _ _ Hp). rewrite (index_nth_error _ _ _ Hn) in Hevery.
  destruct (isObjectLike p); [assumption | now apply objectIs_isEqual].
Qed.

Lemma unchanged_deps_log_nothing_witness :
  Reporting.logDependencyChanges (Some [objAB 1 2; num 1]) (Some [objAB 2 2; num 1])
                                 (Some "fetch-user") = [].
Proof.
  apply (unchanged_deps_log_nothing (Some [objAB 1 2; num 1]) (Some [objAB 2 2; num 1])).
  reflexivity.
Defined.

(* ================================================================= *)
(** ** Which files the Vite plugin transforms *)

Lemma normalize_idempotent (id : string) :
  Vite.normalize (Vite.normalize id) = Vite.normalize id.
Proof.
  induction id as [|c id IH]; simpl; [reflexivity |].
  rewrite IH. f_equal.
  destruct (Ascii.eqb c (ascii_of_nat 92)) eqn:Hc; [reflexivity |].
  now rewrite Hc.
Qed.

Lemma matchesPattern_stateless (id : string) (pattern : Vite.Pattern)
      (indexes : Vite.LastIndexes) :
  Vite.stateless pattern = true ->
  Vite.matchesPattern id pattern indexes = (Vite.accepts id pattern, indexes).
Proof.
  unfold Vite.accepts. destruct pattern as [text|re]; [reflexivity |].
  unfold Vite.stateless. intros Hflags.
  apply negb_true_iff in Hflags. apply orb_false_iff in Hflags as [Hglobal Hsticky].
  unfold Vite.matchesPattern, Vite.regExpTest. rewrite Hglobal, Hsticky.
  cbn [orb]. rewrite Nat.ltb_irrefl || replace (String.length id <? 0)%nat with false
    by (symmetry; apply Nat.ltb_ge; lia).
  destruct (Vite.searchFrom (Vite.matcher re id) 0 (S (String.length id - 0)));
    reflexivity.
Qed.

Lemma anyMatches_stateless (id : string) (patterns : list Vite.Pattern) :
  Forall (fun pattern => Vite.stateless pattern = true) patterns ->
  forall indexes,
    Vite.anyMatches id patterns indexes = (existsb (Vite.accepts id) patterns, indexes).
Proof.
  induction 1 as [|pattern patterns Hp _ IH]; intros indexes; simpl; [reflexivity |].
  rewrite (matchesPattern_stateless _ _ _ Hp).
  destruct (Vite.accepts id pattern); simpl; auto.
Qed.

Lemma anyMatches_found (id : string) (patterns : list Vite.Pattern) (pattern : Vite.Pattern) :
  In pattern patterns ->
  Vite.stateless pattern = true ->
  Vite.accepts id pattern = true ->
  forall indexes, fst (Vite.anyMatches id patterns indexes) = true.
Proof.
  intros Hin Hstateless Haccepts.
  induction patterns as [|first rest IH]; intros indexes; [contradiction |].
  simpl. destruct (Vite.matchesPattern id first indexes) as [found indexes'] eqn:Hfirst.
  destruct found; [reflexivity |].
  destruct Hin as [-> | Hin]; [| now apply IH].
  rewrite (matchesPattern_stateless _ _ _ Hstateless) in Hfirst. congruence.
Qed.

(** X15.  Exclusion wins: a file whose normalized name is matched by a
    string entry or by a [RegExp] entry without [g] and [y] of a truthy
    [exclude] is not transformed, whatever [include] says, whatever the
    other entries are and whatever [lastIndex] the patterns carry. *)
Theorem exclude_overrides_include (id : string) (include exclude : option Vite.Patterns)
        (pattern : Vite.Pattern) (indexes : Vite.LastIndexes) :
  Vite.truthyPatterns exclude = true ->
  In pattern (Vite.patternList exclude) ->
  Vite.stateless pattern = true ->
  Vite.accepts (Vite.normalize id) pattern = true ->
  fst (Vite.shouldTransform id include exclude indexes) = false.
Proof.
  intros Htruthy Hin Hstateless Haccepts. unfold Vite.shouldTransform. rewrite Htruthy.
  pose proof (anyMatches_found _ _ _ Hin Hstateless Haccepts indexes) as Hfound.
  destruct (Vite.anyMatches (Vite.normalize id) (Vite.patternList exclude) indexes)
    as [excluded indexes'].
  simpl in Hfound. now rewrite Hfound.
Qed.

Lemma exclude_overrides_include_witness :
  fst (Vite.shouldTransform "C:\app\node_modules\pkg\index.ts"
                            Vite.defaultInclude Vite.defaultExclude Vite.fresh) = false.
Proof.
  apply (exclude_overrides_include "C:\app\node_modules\pkg\index.ts"
           Vite.defaultInclude Vite.defaultExclude
           (Vite.PatternRegExp Vite.nodeModulesRegExp) Vite.fresh).
  - reflexivity.
  - simpl. auto.
  - reflexivity.
  - vm_compute. reflexivity.
Defined.

(** X16.  Started with the same [lastIndex] values, [shouldTransform]
    gives a file name written with backslashes the answer it gives the
    same name written with slashes, and leaves the same [lastIndex]
    values. *)
Theorem path_separators_do_not_matter (id : string) (include exclude : option Vite.Patterns)
        (indexes : Vite.LastIndexes) :
  Vite.shouldTransform (Vite.normalize id) include exclude indexes
  = Vite.shouldTransform id include exclude indexes.
Proof.
  unfold Vite.shouldTransform. now rewrite normalize_idempotent.
Qed.

(** X17.  An empty [include] array lets no file through; an empty
    [include] string counts as no [include] at all; and without
    [include], when every entry of [exclude] is a string or a [RegExp]
    without [g] and [y], a file is transformed exactly when [exclude] is
    falsy or none of its entries matches the normalized name. *)
Theorem include_edge_cases (id : string) (exclude : option Vite.Patterns)
        (indexes : Vite.LastIndexes) :
  fst (Vite.shouldTransform id (Some (Vite.Many [])) exclude indexes) = false
  /\ Vite.shouldTransform id (Some (Vite.One (Vite.PatternString ""))) exclude indexes
     = Vite.shouldTransform id None exclude indexes
  /\ (Forall (fun pattern => Vite.stateless pattern = true) (Vite.patternList exclude) ->
      (fst (Vite.shouldTransform id None exclude indexes) = true
       <-> Vite.truthyPatterns exclude = false
           \/ forall pattern, In pattern (Vite.patternList exclude) ->
                              Vite.accepts (Vite.normalize id) pattern = false)).
Proof.
  split; [| split].
  - unfold Vite.shouldTransform.
    destruct (Vite.truthyPatterns exclude);
      [destruct (Vite.anyMatches _ _ _) as [[|] indexes'] |]; reflexivity.
  - reflexivity.
  - intros Hstateless. unfold Vite.shouldTransform.
    destruct (Vite.truthyPatterns exclude); simpl; [| intuition].
    rewrite (anyMatches_stateless _ _ Hstateless).
    destruct (existsb (Vite.accepts (Vite.normalize id)) (Vite.patternList exclude)) eqn:Hex;
      simpl.
    + split; [discriminate |]. intros [H | H]; [discriminate |].
      apply existsb_exists in Hex as (p & Hp & Hm). rewrite (H p Hp) in Hm. discriminate.
    + split; [| reflexivity]. intros _. right. intros p Hp.
      destruct (Vite.accepts (Vite.normalize id) p) eqn:Hm; [| reflexivity].
      assert (existsb (Vite.accepts (Vite.normalize id)) (Vite.patternList exclude) = true)
        by (apply existsb_exists; eauto). congruence.
Qed.

(** X22.  When every entry of [include] and of [exclude] is a string or a
    [RegExp] without [g] and [y], [shouldTransform] leaves every
    [lastIndex] as it found it and its answer does not depend on them:
    calling it again on the same file gives the same answer. *)
Theorem stateless_patterns_repeatable (id : string) (include exclude : option Vite.Patterns)
        (indexes : Vite.LastIndexes) :
  Forall (fun pattern => Vite.stateless pattern = true) (Vite.patternList include) ->
  Forall (fun pattern => Vite.stateless pattern = true) (Vite.patternList exclude) ->
  Vite.shouldTransform id include exclude indexes
  = (fst (Vite.shouldTransform id include exclude Vite.fresh), indexes).
Proof.
  intros Hinclude Hexclude. unfold Vite.shouldTransform.
  destruct (Vite.truthyPatterns exclude).
  - rewrite !(anyMatches_stateless _ _ Hexclude).
    destruct (existsb _ (Vite.patternList exclude)); [reflexivity |].
    destruct (Vite.truthyPatterns include); [| reflexivity].
    now rewrite !(anyMatches_stateless _ _ Hinclude).
  - destruct (Vite.truthyPatterns include); [| reflexivity].
    now rewrite !(anyMatches_stateless _ _ Hinclude).
Qed.

Lemma stateless_patterns_repeatable_witness :
  Vite.shouldTransform "src/App.tsx" Vite.defaultInclude Vite.defaultExclude Vite.fresh
  = (true, Vite.fresh).
Proof.
  rewrite (stateless_patterns_repeatable "src/App.tsx" Vite.defaultInclude
             Vite.defaultExclude Vite.fresh).
  - vm_compute. reflexivity.
  - repeat constructor.
  - repeat constructor.
Defined.

(** With [/node_modules/g] as [exclude], three calls in a row on one file
    inside [node_modules] answer no, yes, no: the second call starts its
    search where the first match ended. *)
Example global_exclude_alternates :
  let exclude := Some (Vite.One (Vite.PatternRegExp Vite.nodeModulesGlobal)) in
  let call indexes :=
    Vite.shouldTransform "src/node_modules/pkg/index.ts" Vite.defaultInclude exclude indexes in
  let first := call Vite.fresh in
  let second := call (snd first) in
  let third := call (snd second) in
  (fst first, fst second, fst third) = (false, true, false).
Proof.
  vm_compute. reflexivity.
Qed.

(* ================================================================= *)
(** ** The Babel plugin *)

Lemma inspect_counts (bound : string -> bool) (fix_ : bool) (found : Babel.Findings)
      (dep : option Babel.Element) (index : nat) :
  List.length (Babel.issues (Babel.inspect bound fix_ found dep index))
  = List.length (Babel.issues found) + (if Babel.flagged bound dep then 1 else 0)
  /\ List.length (Babel.fixes (Babel.inspect bound fix_ found dep index))
     = List.length (Babel.fixes found)
       + (if fix_ && Babel.fixable dep then 1 else 0).
Proof.
  destruct dep as [[| | | |name|]|]; simpl; unfold push;
    try destruct (bound name); destruct fix_; simpl; rewrite ?length_app; simpl; lia.
Qed.

Lemma forEachFrom_inspect (bound : string -> bool) (fix_ : bool)
      (deps : list (option Babel.Element)) :
  forall (i : nat) (found : Babel.Findings),
    List.length (Babel.issues (forEachFrom (Babel.inspect bound fix_) i deps found))
    = List.length (Babel.issues found) + List.length (filter (Babel.flagged bound) deps)
    /\ List.length (Babel.fixes (forEachFrom (Babel.inspect bound fix_) i deps found))
       = List.length (Babel.fixes found)
         + (if fix_ then List.length (filter Babel.fixable deps) else 0).
Proof.
  induction deps as [|dep deps IH]; intros i found; simpl.
  - destruct fix_; lia.
  - destruct (IH (S i) (Babel.inspect bound fix_ found dep i)) as [Hi Hf].
    destruct (inspect_counts bound fix_ found dep i) as [Hi' Hf'].
    rewrite Hi, Hf, Hi', Hf'.
    destruct (Babel.flagged bound dep), (Babel.fixable dep), fix_; simpl; lia.
Qed.

Lemma filter_length_existsb {A : Type} (f : A -> bool) (l : list A) :
  (0 <? List.length (filter f l))%nat = existsb f l.
Proof.
  induction l as [|x l IH]; simpl; [reflexivity |].
  destruct (f x); simpl; auto.
Qed.

Lemma second_argument (args : list Babel.Argument) (deps : list (option Babel.Element)) :
  nth_error args 1 = Some (Babel.ArrayArgument deps)
  <-> (List.length args <? 2)%nat = false
      /\ nth 1 args Babel.OtherArgument = Babel.ArrayArgument deps.
Proof.
  destruct args as [|a [|b args]]; simpl; split; try discriminate;
    try (intros [H _]; discriminate); try (intros [_ H]; discriminate).
  - intros [= ->]. auto.
  - intros [_ ->]. reflexivity.
Qed.

Lemma analyzeDependencies_array (bound : string -> bool) (node : Babel.CallExpression)
      (state : Babel.PluginState) (deps : list (option Babel.Element)) :
  nth_error (Babel.arguments node) 1 = Some (Babel.ArrayArgument deps) ->
  exists message logs,
    List.length logs
    = (if Babel.autoFix state then List.length (filter Babel.fixable deps) else 0)
    /\ Babel.analyzeDependencies bound node state
       = if existsb (Babel.flagged bound) deps then
           if Babel.warnOnly state
           then Babel.Completed (Reporting.ConsoleWarn message :: logs)
           else Babel.CodeFrameError message
         else Babel.Completed [].
Proof.
  intros Hargs. apply second_argument in Hargs as [Hlen Hnth].
  unfold Babel.analyzeDependencies. rewrite Hlen, Hnth.
  unfold forEach.
  destruct (forEachFrom_inspect bound (Babel.autoFix state) deps 0 (Babel.mkFindings [] []))
    as [Hissues Hfixes].
  simpl in Hissues, Hfixes.
  set (found := forEachFrom _ 0 deps _) in *.
  rewrite Hissues, filter_length_existsb.
  eexists _, (if Babel.autoFix state && (0 <? List.length (Babel.fixes found))%nat
              then map (fun text => Reporting.ConsoleLog text []) (Babel.fixes found)
              else []).
  split; [| reflexivity].
  destruct (Babel.autoFix state); simpl.
  - destruct (Babel.fixes found) eqn:Hf; simpl in *; [lia |].
    rewrite length_map. simpl. lia.
  - reflexivity.
Qed.

Lemma analyzeDependencies_not_array (bound : string -> bool) (node : Babel.CallExpression)
      (state : Babel.PluginState) :
  (forall deps, nth_error (Babel.arguments node) 1 <> Some (Babel.ArrayArgument deps)) ->
  Babel.analyzeDependencies bound node state = Babel.Completed [].
Proof.
  intros Hnone. unfold Babel.analyzeDependencies.
  destruct (List.length (Babel.arguments node) <? 2)%nat eqn:Hlen; [reflexivity |].
  destruct (nth 1 (Babel.arguments node) Babel.OtherArgument) as [deps|] eqn:Hnth;
    [| reflexivity].
  exfalso. apply (Hnone deps). apply second_argument. auto.
Qed.

(** X18.  The visitor throws exactly when the callee is an identifier named
    [useSmartEffect], [useDeepEffect], [useDebugEffect] or
    [useSmartLayoutEffect], the second argument is an array literal with
    an element that is an object or array literal, a function or arrow
    function expression or an identifier without binding, and [warnOnly]
    is not set. *)
Theorem plugin_throws_iff (bound : string -> bool) (node : Babel.CallExpression)
        (state : Babel.PluginState) :
  (exists message, Babel.visitCallExpression bound node state = Babel.CodeFrameError message)
  <-> exists name deps,
      Babel.callee node = Babel.IdentifierCallee name
      /\ Babel.isHookName name = true
      /\ nth_error (Babel.arguments node) 1 = Some (Babel.ArrayArgument deps)
      /\ existsb (Babel.flagged bound) deps = true
      /\ Babel.warnOnly state = false.
Proof.
  unfold Babel.visitCallExpression. split.
  - intros [message H].
    destruct (Babel.callee node) as [name|]; [| discriminate].
    destruct (Babel.isHookName name) eqn:Hname; [| discriminate].
    destruct (nth_error (Babel.arguments node) 1) as [[deps|]|] eqn:Hargs.
    + destruct (analyzeDependencies_array bound node state deps Hargs)
        as (m & logs & _ & Hrun).
      rewrite Hrun in H.
      destruct (existsb (Babel.flagged bound) deps) eqn:Hflag; [| discriminate].
      destruct (Babel.warnOnly state) eqn:Hwarn; [discriminate |].
      exists name, deps. auto.
    + rewrite analyzeDependencies_not_array in H; [discriminate |].
      intros deps. congruence.
    + rewrite analyzeDependencies_not_array in H; [discriminate |].
      intros deps. congruence.
  - intros (name & deps & -> & -> & Hargs & Hflag & Hwarn).
    destruct (analyzeDependencies_array bound node state deps Hargs)
      as (m & logs & _ & Hrun).
    rewrite Hrun, Hflag, Hwarn. eauto.
Qed.






(* ================================================================= *)
(** ** Rendering again with the same values *)

(** X20.  Without a custom predicate, a render that follows a render with
    the very same dependency values never runs the effect, under the
    identity strategy and under the deep one ([NaN] included). *)
Theorem same_values_never_rerun
        (options : UseSmartEffectOptions) (refs refs' : HookRefs)
        (deps : DependencyList) (run : bool) :
  compareFunction options = None ->
  render options (Some deps) refs = Ok (run, refs') ->
  shouldRun options refs' (Some deps) = Ok false.
Proof.
  intros Hcmp Hrender. unfold render in Hrender.
  destruct (shouldRun_returns options refs (Some deps)) as [b Hb].
  rewrite Hb in Hrender. simpl in Hrender. injection Hrender as _ <-.
  destruct (deepCompare options) eqn:Hdeep.
  - rewrite shouldRun_deep by auto. simpl.
    rewrite deepCompareDeps_present, Nat.eqb_refl. simpl.
    match goal with |- context [every ?f deps] =>
      assert (every f deps = true) as -> end; [| reflexivity].
    apply every_spec. intros k p Hp. rewrite (index_nth_error _ _ _ Hp).
    destruct (isObjectLike p); [apply objectIs_isEqual |]; apply objectIs_refl.
  - rewrite (shouldRun_identity _ _ deps) by auto.
    rewrite Nat.eqb_refl. simpl.
    assert (every (fun dep index => objectIs dep (JS.index deps index)) deps = true) as ->;
      [| reflexivity].
    apply every_spec. intros k p Hp. rewrite (index_nth_error _ _ _ Hp).
    apply objectIs_refl.
Qed.

Lemma same_values_never_rerun_witness :
  shouldRun deepOptions (after (Some [VNumber NaN; objAB 1 2; namedFn]))
            (Some [VNumber NaN; objAB 1 2; namedFn]) = Ok false.
Proof.
  apply (same_values_never_rerun deepOptions initialRefs
           (after (Some [VNumber NaN; objAB 1 2; namedFn]))
           [VNumber NaN; objAB 1 2; namedFn] true); reflexivity.
Defined.
